(** * A shallow embedding of the 6S emulator LUT pipeline

    The modelled sources are [LUT_build.py] (parameter space, permutations,
    the build loop and its [main]), [LUT_interpolate.py] and
    [bin/interpolated_LUTs.py] (interpolator construction from stored LUTs)
    and [z/validation/validation_stats.py] (reflectance statistics).

    Numbers.  Python and numpy floats are modelled by exact rationals in
    canonical form ([Qc]); a float literal is the decimal rational it
    denotes, and [np.pi] / [math.pi] is the exact rational value of the
    IEEE double 3.141592653589793.  Rounding is not modelled.  For the
    validation statistics, where numpy produces [nan] and [inf], values are
    the type [flt] below: a finite rational or one of the IEEE specials
    (signed zeros are not distinguished). *)

From Stdlib Require Import String Ascii Bool Arith Lia ZArith QArith Qcanon List.
From Stdlib Require Import DecimalString Lqa Sorted.
Import ListNotations.

Open Scope list_scope.
Set Warnings "-register-all".


(** ** Numbers *)

Definition qc (n : Z) (d : positive) : Qc := Q2Qc (n # d).

(** The double closest to pi is 884279719003555 / 2^48. *)
Definition np_pi : Qc := qc 884279719003555 281474976710656.

(** ** ParameterSpace: [mid_points], [input_variables], [permutate_invars] *)

(** The dict of input variables: one value sequence per named dimension. *)
Record Grid := mkGrid {
  solar_zs : list Qc;
  H2Os : list Qc;
  O3s : list Qc;
  AOTs : list Qc;
  alts : list Qc
}.

(** numpy slices [x[1:]] and [x[:-1]] (both empty on an empty array). *)
Definition slice_from1 (x : list Qc) : list Qc := tl x.
Definition slice_to_last (x : list Qc) : list Qc := removelast x.

(** Element-wise [+] of two arrays; both operands of the only use have the
    same length, so numpy's broadcasting never comes into play. *)
Fixpoint np_add (x y : list Qc) : list Qc :=
  match x, y with
  | a :: x', b :: y' => (a + b)%Qc :: np_add x' y'
  | _, _ => []
  end.

(** [mid_points(elements)]:
    [x = np.array(elements); return (x[1:] + x[:-1]) / 2] *)
Definition mid_points (elements : list Qc) : list Qc :=
  let x := elements in
  map (fun v => (v / qc 2 1)%Qc) (np_add (slice_from1 x) (slice_to_last x)).

Definition test_grid : Grid := {|
  solar_zs := [qc 0 1];
  H2Os := [qc 0 1];
  O3s := [qc 0 1];
  AOTs := [qc 0 1];
  alts := [qc 0 1] |}.

Definition test2_grid : Grid := {|
  solar_zs := [qc 0 1; qc 10 1; qc 20 1];
  H2Os := [qc 0 1; qc 2 1; qc 3 1];
  O3s := [qc 0 1; qc 4 10; qc 8 10];
  AOTs := [qc 0 1; qc 10 10];
  alts := [qc 0 1; qc 2 1; qc 4 1] |}.

Definition full_grid : Grid := {|
  solar_zs := [qc 0 1; qc 10 1; qc 20 1; qc 30 1; qc 40 1; qc 50 1;
               qc 60 1; qc 65 1; qc 70 1; qc 75 1];
  H2Os := [qc 0 1; qc 25 100; qc 5 10; qc 1 1; qc 15 10; qc 2 1;
           qc 3 1; qc 5 1; qc 85 10];
  O3s := [qc 0 1; qc 8 10];
  AOTs := [qc 0 1; qc 25 100; qc 5 10; qc 75 100; qc 10 10; qc 125 100;
           qc 15 10; qc 225 100; qc 3 1];
  alts := [qc 0 1; qc 1 1; qc 4 1; qc 775 100] |}.

Definition validation_grid : Grid := {|
  solar_zs := mid_points (solar_zs full_grid);
  H2Os := mid_points (H2Os full_grid);
  O3s := mid_points (O3s full_grid);
  AOTs := mid_points (AOTs full_grid);
  alts := mid_points (alts full_grid) |}.

(** [input_variables(build_type)]: [build_selector[build_type]]; a key
    missing from the selector raises [KeyError] ([None]). *)
Definition input_variables (build_type : string) : option Grid :=
  if String.eqb build_type "test" then Some test_grid
  else if String.eqb build_type "test2" then Some test2_grid
  else if String.eqb build_type "validation" then Some validation_grid
  else if String.eqb build_type "full" then Some full_grid
  else None.

(** [itertools.product( *pools)], as its reference implementation in the
    Python documentation:
    [result = [[]]; for pool in pools: result = [x+[y] for x in result for y in pool]] *)
Definition itertools_product {A : Type} (pools : list (list A)) : list (list A) :=
  fold_left (fun result pool =>
               flat_map (fun x => map (fun y => x ++ [y]) pool) result)
            pools [[]].

(** A permutation is the 5-tuple [(solar_z, H2O, O3, AOT, alt)]. *)
Definition Perm := list Qc.

(** [permutate_invars(invars)] *)
Definition permutate_invars (invars : Grid) : list Perm :=
  itertools_product [solar_zs invars; H2Os invars; O3s invars;
                     AOTs invars; alts invars].

(** The same product written out as the nested iteration
    [for s in solar_zs: for h in H2Os: for o in O3s: for a in AOTs: for z in alts],
    the first dimension varying slowest. *)
Definition nested_product5 (g : Grid) : list Perm :=
  flat_map (fun s =>
  flat_map (fun h =>
  flat_map (fun o =>
  flat_map (fun a =>
  map (fun z => [s; h; o; a; z])
      (alts g)) (AOTs g)) (O3s g)) (H2Os g)) (solar_zs g).

Definition grid_size (g : Grid) : nat :=
  length (solar_zs g) * length (H2Os g) * length (O3s g)
  * length (AOTs g) * length (alts g).

(** The validation grid as the spec describes it: consecutive midpoints. *)
Fixpoint consecutive_midpoints (v : list Qc) : list Qc :=
  match v with
  | a :: ((b :: _) as rest) => ((a + b) / qc 2 1)%Qc :: consecutive_midpoints rest
  | _ => []
  end.

(** ** Floating-point values of the validation code *)

Inductive flt : Type :=
| Fin (q : Qc)
| PInf
| NInf
| NaN.

Definition fneg (a : flt) : flt :=
  match a with
  | Fin x => Fin (- x)%Qc
  | PInf => NInf
  | NInf => PInf
  | NaN => NaN
  end.

Definition fadd (a b : flt) : flt :=
  match a, b with
  | NaN, _ | _, NaN => NaN
  | PInf, NInf | NInf, PInf => NaN
  | PInf, _ | _, PInf => PInf
  | NInf, _ | _, NInf => NInf
  | Fin x, Fin y => Fin (x + y)%Qc
  end.

Definition fsub (a b : flt) : flt := fadd a (fneg b).

(** An infinity with the sign of [c]; [Eq] (a zero factor) gives [nan]. *)
Definition inf_of_sign (c : comparison) : flt :=
  match c with Gt => PInf | Lt => NInf | Eq => NaN end.

Definition qsign (x : Qc) : comparison := Qcompare x 0.

Definition fmul (a b : flt) : flt :=
  match a, b with
  | NaN, _ | _, NaN => NaN
  | Fin x, Fin y => Fin (x * y)%Qc
  | PInf, Fin y | Fin y, PInf => inf_of_sign (qsign y)
  | NInf, Fin y | Fin y, NInf => inf_of_sign (CompOpp (qsign y))
  | PInf, PInf | NInf, NInf => PInf
  | PInf, NInf | NInf, PInf => NInf
  end.

(** IEEE division; a zero divisor counts as [+0.0]. *)
Definition fdiv (a b : flt) : flt :=
  match a, b with
  | NaN, _ | _, NaN => NaN
  | Fin x, Fin y =>
      if Qc_eq_bool y 0 then inf_of_sign (qsign x) else Fin (x / y)%Qc
  | Fin _, PInf | Fin _, NInf => Fin 0
  | PInf, Fin y => match qsign y with Lt => NInf | _ => PInf end
  | NInf, Fin y => match qsign y with Lt => PInf | _ => NInf end
  | _, _ => NaN
  end.

Definition fabs (a : flt) : flt :=
  match a with
  | Fin x => Fin (if Qclt_le_dec x 0 then - x else x)%Qc
  | PInf | NInf => PInf
  | NaN => NaN
  end.

(** Python's [==] on floats: [nan] equals nothing, not even itself. *)
Definition py_eq (a b : flt) : bool :=
  match a, b with
  | Fin x, Fin y => Qc_eq_bool x y
  | PInf, PInf | NInf, NInf => true
  | _, _ => false
  end.

Definition is_nan (a : flt) : bool :=
  match a with NaN => true | _ => false end.

(** The order numpy sorts by: [-inf < finite < inf < nan]. *)
Definition fle (a b : flt) : bool :=
  match a, b with
  | _, NaN => true
  | NaN, _ => false
  | NInf, _ => true
  | _, NInf => false
  | _, PInf => true
  | PInf, _ => false
  | Fin x, Fin y => Qle_bool x y
  end.

(** [np.minimum] / [np.maximum]: [nan] propagates. *)
Definition fmin (a b : flt) : flt :=
  if is_nan a || is_nan b then NaN else if fle a b then a else b.
Definition fmax (a b : flt) : flt :=
  if is_nan a || is_nan b then NaN else if fle a b then b else a.

(** ** Python exceptions and a small error monad *)

Inductive exc : Type :=
| IndexError
| ValueError
| KeyError
| TypeError
| FileNotFoundError.

Inductive result (A : Type) : Type :=
| Ok (a : A)
| Err (e : exc).
Arguments Ok {A} a.
Arguments Err {A} e.

Definition bind {A B : Type} (m : result A) (k : A -> result B) : result B :=
  match m with Ok a => k a | Err e => Err e end.

Notation "'let*' x ':=' m 'in' k" := (bind m (fun x => k))
  (at level 200, x name, m at level 100, k at level 200).

(** ** numpy arrays of the validation code *)

(** [np.array(rows)] of a list of tuples: an empty list gives a 1-d array
    of shape [(0,)], rows of one width a 2-d array, ragged rows are
    refused with [ValueError]. *)
Inductive ndarray : Type :=
| Arr1 (xs : list flt)
| Arr2 (rows : list (list flt)) (width : nat).

Definition np_array (rows : list (list flt)) : result ndarray :=
  match rows with
  | [] => Ok (Arr1 [])
  | r0 :: _ =>
      if forallb (fun r => Nat.eqb (List.length r) (List.length r0)) rows
      then Ok (Arr2 rows (List.length r0)) else Err ValueError
  end.

(** Column selection [A[:,j]]. *)
Definition np_col (A : ndarray) (j : nat) : result (list flt) :=
  match A with
  | Arr1 _ => Err IndexError
  | Arr2 rows w =>
      if Nat.ltb j w then Ok (map (fun r => nth j r NaN) rows)
      else Err IndexError
  end.

(** A binary element-wise operation on two 1-d arrays, with numpy's
    broadcasting of a length-1 operand. *)
Definition np_binop (f : flt -> flt -> flt) (x y : list flt) : result (list flt) :=
  if Nat.eqb (List.length x) (List.length y) then Ok (map (fun '(a, b) => f a b) (combine x y))
  else match x, y with
       | [a], _ => Ok (map (f a) y)
       | _, [b] => Ok (map (fun a => f a b) x)
       | _, _ => Err ValueError
       end.

(** ** [reflectance_stats] (validation_stats.py; the copy in
    Deterministic/LUT_validation_stats.py is identical) *)

(** [ref*tau2*(Edir + Edif)/np.pi + Lp], [ref] a scalar. *)
Definition at_sensor_radiance (ref : flt) (Edir Edif tau2 Lp : list flt)
  : result (list flt) :=
  let t1 := map (fmul ref) tau2 in
  let* e := np_binop fadd Edir Edif in
  let* t2 := np_binop fmul t1 e in
  let t3 := map (fun v => fdiv v (Fin np_pi)) t2 in
  np_binop fadd t3 Lp.

(** [np.pi*(rad-Lp) / (tau2*(Edir+Edif))] *)
Definition surface_reflectance (rad Edir Edif tau2 Lp : list flt)
  : result (list flt) :=
  let* d := np_binop fsub rad Lp in
  let num := map (fmul (Fin np_pi)) d in
  let* e := np_binop fadd Edir Edif in
  let* den := np_binop fmul tau2 e in
  np_binop fdiv num den.

(** The arrays [radiance] and [interp_ref] of [reflectance_stats]. *)
Definition rs_radiance_interp (ref : flt) (sixs_outputs estimated_outputs : list (list flt))
  : result (list flt * list flt) :=
  let* SixS := np_array sixs_outputs in
  let* est := np_array estimated_outputs in
  let* s0 := np_col SixS 0 in let* s1 := np_col SixS 1 in
  let* s2 := np_col SixS 2 in let* s3 := np_col SixS 3 in
  let* radiance := at_sensor_radiance ref s0 s1 s2 s3 in
  let* e0 := np_col est 0 in let* e1 := np_col est 1 in
  let* e2 := np_col est 2 in let* e3 := np_col est 3 in
  let* interp_ref := surface_reflectance radiance e0 e1 e2 e3 in
  Ok (radiance, interp_ref).

(** The array [pd = 100*(interp_ref-ref)/ref], before the [nan] filter. *)
Definition rs_pd (ref : flt) (sixs_outputs estimated_outputs : list (list flt))
  : result (list flt) :=
  let* ri := rs_radiance_interp ref sixs_outputs estimated_outputs in
  Ok (map (fun v => fdiv (fmul (Fin (qc 100 1)) (fsub v ref)) ref) (snd ri)).

(** [pd[np.where(pd==pd)]] *)
Definition drop_nans (pd : list flt) : list flt := filter (fun x => py_eq x x) pd.

Definition fsum (xs : list flt) : flt := fold_left fadd xs (Fin 0).

Definition flen (xs : list flt) : flt := Fin (Q2Qc (Z.of_nat (List.length xs) # 1)).

(** [np.mean]: an empty array gives [0.0/0 = nan] (and a warning). *)
Definition np_mean (xs : list flt) : flt := fdiv (fsum xs) (flen xs).

(** [np.min] / [np.max]: a zero-size array raises [ValueError]. *)
Definition np_min (xs : list flt) : result flt :=
  match xs with [] => Err ValueError | x :: r => Ok (fold_left fmin r x) end.
Definition np_max (xs : list flt) : result flt :=
  match xs with [] => Err ValueError | x :: r => Ok (fold_left fmax r x) end.

Fixpoint insert_sorted (x : flt) (xs : list flt) : list flt :=
  match xs with
  | [] => [x]
  | y :: r => if fle x y then x :: xs else y :: insert_sorted x r
  end.

(** [np.sort] *)
Definition np_sort (xs : list flt) : list flt := fold_right insert_sorted [] xs.

(** numpy's [_lerp(a, b, t)]: [a + (b-a)*t], or [b - (b-a)*(1-t)] for [t >= 0.5]. *)
Definition np_lerp (a b : flt) (t : Qc) : flt :=
  if Qle_bool (qc 1 2) t then fsub b (fmul (fsub b a) (Fin (1 - t)%Qc))
  else fadd a (fmul (fsub b a) (Fin t)).

(** [np.percentile(xs, q)] with the default linear method: virtual index
    [(n-1)*q/100] into the sorted array. *)
Definition percentile_sorted (s : list flt) (q : nat) : flt :=
  let n := List.length s in
  let h := ((n - 1) * q)%nat in
  let lo := (h / 100)%nat in
  let hi := Nat.min (lo + 1) (n - 1) in
  let t := qc (Z.of_nat (h mod 100)%nat) 100 in
  np_lerp (nth lo s NaN) (nth hi s NaN) t.

Definition np_percentile (xs : list flt) (qs : list nat) : result (list flt) :=
  match xs with
  | [] => Err IndexError
  | _ => let s := np_sort xs in Ok (map (percentile_sorted s) qs)
  end.

Record ValidationResult := mkValidationResult {
  vr_ref : flt;
  vr_pd : list flt;
  vr_stats : flt * flt * flt * flt;
  vr_confidence : list (string * flt)
}.

Section ReflectanceStats.

(** [np.sqrt] on finite non-negative values, which exact rationals do not
    have in general. *)
Variable sqrt_q : Qc -> Qc.

Definition np_sqrt (a : flt) : flt :=
  match a with
  | Fin x => if Qclt_le_dec x 0 then NaN else Fin (sqrt_q x)
  | PInf => PInf
  | NInf | NaN => NaN
  end.

(** [np.std] (ddof = 0): [sqrt(mean(abs(x - x.mean())**2))]. *)
Definition np_std (xs : list flt) : flt :=
  let m := np_mean xs in
  let dev := map (fun x => fsub x m) xs in
  np_sqrt (fdiv (fsum (map (fun d => fmul d d) dev)) (flen xs)).

Definition reflectance_stats (ref : flt) (sixs_outputs estimated_outputs : list (list flt))
  : result ValidationResult :=
  let* pd0 := rs_pd ref sixs_outputs estimated_outputs in
  let pd := drop_nans pd0 in
  let mean := np_mean pd in
  let std := np_std pd in
  let* mn := np_min pd in
  let* mx := np_max pd in
  let* q := np_percentile (map fabs pd) [90; 95; 99]%nat in
  Ok {| vr_ref := ref; vr_pd := pd; vr_stats := (mean, std, mn, mx);
        vr_confidence := [("90"%string, nth 0 q NaN); ("95"%string, nth 1 q NaN);
                          ("99"%string, nth 2 q NaN)] |}.

End ReflectanceStats.

(** ** Strings and [os.path] *)

(** Python's [s.split(sep)] for a one-character separator. *)
Fixpoint py_split (c : ascii) (s : string) : list string :=
  match s with
  | EmptyString => [""%string]
  | String x r =>
      let parts := py_split c r in
      if Ascii.eqb x c then ""%string :: parts
      else match parts with
           | p :: ps => String x p :: ps
           | [] => [String x ""]
           end
  end.

(** [sep.join(parts)] *)
Definition py_join (sep : string) (parts : list string) : string := String.concat sep parts.

Definition ends_with_slash (s : string) : bool :=
  match String.get (String.length s - 1) s with
  | Some c => Ascii.eqb c "/"%char
  | None => false
  end.

(** [posixpath.join(a, b)] *)
Definition path_join (a b : string) : string :=
  if String.prefix "/" b then b
  else if String.eqb a "" || ends_with_slash a then (a ++ b)%string
  else (a ++ "/" ++ b)%string.

(** [os.path.basename] *)
Definition basename (p : string) : string := last (py_split "/"%char p) ""%string.

(** [os.path.splitext(fname)[0]] for a name matched by [*.lut]: the name
    without its [.lut] extension. *)
Definition strip_ext (ext fname : string) : string :=
  let n := String.length fname in
  let k := String.length ext in
  if (k <? n)%nat && String.eqb (String.substring (n - k) k fname) ext
  then String.substring 0 (n - k) fname else fname.

Definition string_of_Z (z : Z) : string := NilZero.string_of_int (Z.to_int z).

(** ** Configuration, tables and the artifact store *)

(** The Py6S [Wavelength] object of the configuration. *)
Inductive Spectrum : Type :=
| WlChannel (channel : string)
| WlSingle (start : Qc)
| WlRange (start end_ : Qc)
| WlFiltered (start end_ : Qc) (filter : list string).

(** The [config] dict of [LUT_build.main], with the keys [outdir],
    [filename] and [filepath] that [IO_handler] adds to it. *)
Record Config := mkConfig {
  spectrum : Spectrum;
  aerosol_profile : string;
  view_zenith : Z;
  build_type : string;
  invars : Grid;
  outdir : string;
  filename : string;
  filepath : string
}.

(** Values found in a pickled LUT dict. *)
Inductive LutEntry : Type :=
| EConfig (c : Config)
| ERows (rows : list (list Qc))
| EDict (d : list (string * LutEntry)).

Definition LutDict := list (string * LutEntry).

(** [d[key]] on a dict: [KeyError] when absent. *)
Definition getitem {V : Type} (d : list (string * V)) (key : string) : result V :=
  match find (fun kv => String.eqb (fst kv) key) d with
  | Some (_, v) => Ok v
  | None => Err KeyError
  end.

(** [argparse] results of [LUT_build.main]; [None] is an absent option. *)
Record Args := mkArgs {
  arg_channel : option string;
  arg_wavelength : option (list string);
  arg_filter : option (list string);
  arg_aerosol : option string;
  arg_build_type : option string
}.

(** Python truthiness of an optional string / list argument. *)
Definition truthy_str (o : option string) : option string :=
  match o with Some s => if String.eqb s "" then None else Some s | None => None end.
Definition truthy_list (o : option (list string)) : option (list string) :=
  match o with Some ((_ :: _) as l) => Some l | _ => None end.

(** [IO_handler(config, args)]: the [filename] and the [outdir] /
    [filepath] derived from the arguments (directory creation and [chdir]
    are not modelled). Returns [(outdir, filename, filepath)]. *)
Definition IO_handler (base_path aero : string) (vz : Z) (args : Args)
  : string * string * string :=
  let fname0 :=
    ((match truthy_list (arg_wavelength args) with
      | Some w => "wavelength_" ++ py_join "_" w
      | None => ""
      end)
     ++ (match truthy_list (arg_filter args) with Some _ => "_f" | None => "" end))%string in
  let fname := match truthy_str (arg_channel args) with Some c => c | None => fname0 end in
  let sensor_name :=
    match truthy_str (arg_channel args) with
    | Some _ => py_join "_" (removelast (py_split "_"%char fname))
    | None => "user-defined-sensor"%string
    end in
  let od := path_join (path_join (path_join (path_join (path_join base_path "files") "LUTs")
                        sensor_name) aero) ("view_zenith_" ++ string_of_Z vz) in
  (od, (fname ++ ".lut")%string, path_join od (fname ++ ".lut")).

Inductive Outcome : Type :=
| Finished
| Exited (code : Z)
| Raised (e : exc).

Section Pipeline.

(** The 6S run: the parameters the build loop sets on the [SixS] object
    and the outputs it reads back. *)
Record SixSParams := mkSixSParams {
  p_aero_profile : string;
  p_view_z : Z;
  p_month : Z;
  p_day : Z;
  p_solar_z : Qc;
  p_water : Qc;
  p_ozone : Qc;
  p_aot550 : Qc;
  p_target_alt : Qc;
  p_wavelength : Spectrum
}.

Record SixSOutputs := mkSixSOutputs {
  direct_solar_irradiance : Qc;
  diffuse_solar_irradiance : Qc;
  trans_global_gas_upward : Qc;
  trans_total_scattering_upward : Qc;
  atmospheric_intrinsic_radiance : Qc
}.

(** External collaborators: [s.run()] of Py6S, the names Py6S knows
    ([PredefinedWavelengths.__dict__], [AeroProfile.__dict__]), Python's
    [float(str)] and scipy's [LinearNDInterpolator] (which may raise). *)
Variable sixs_run : SixSParams -> SixSOutputs.
Variable channel_known : string -> bool.
Variable aerosol_known : string -> bool.
Variable py_float : string -> option Qc.
Variable Interp : Type.
Variable LinearNDInterpolator : list (list Qc) -> list (list Qc) -> result Interp.

Inductive File : Type :=
| FLut (d : LutDict)
| FIlut (i : Interp).

(** The file system (path to pickled object), and counters of the
    expensive calls: 6S runs and interpolator constructions. *)
Record World := mkWorld {
  files : string -> option File;
  sim_runs : nat;
  interp_builds : nat
}.

Definition isfile (w : World) (p : string) : bool :=
  match files w p with Some _ => true | None => false end.

(** [pickle.dump(obj, open(p, 'wb'))] *)
Definition dump (p : string) (f : File) (w : World) : World :=
  {| files := fun q => if String.eqb q p then Some f else files w q;
     sim_runs := sim_runs w; interp_builds := interp_builds w |}.

Definition count_sim (w : World) : World :=
  {| files := files w; sim_runs := S (sim_runs w); interp_builds := interp_builds w |}.
Definition count_interp (w : World) : World :=
  {| files := files w; sim_runs := sim_runs w; interp_builds := S (interp_builds w) |}.

(** One iteration of the build loop: set the per-sample parameters, run
    6S, and compute [(a, b)] with [a = Lp], [b = (tau2*E)/math.pi]. *)
Definition sixs_sample (config : Config) (perm : Perm) : list Qc :=
  let o := sixs_run {| p_aero_profile := aerosol_profile config;
                       p_view_z := view_zenith config; p_month := 1; p_day := 4;
                       p_solar_z := nth 0 perm 0; p_water := nth 1 perm 0;
                       p_ozone := nth 2 perm 0; p_aot550 := nth 3 perm 0;
                       p_target_alt := nth 4 perm 0;
                       p_wavelength := spectrum config |} in
  let Edir := direct_solar_irradiance o in
  let Edif := diffuse_solar_irradiance o in
  let E := (Edir + Edif)%Qc in
  let tau2 := (trans_global_gas_upward o * trans_total_scattering_upward o)%Qc in
  let Lp := atmospheric_intrinsic_radiance o in
  [Lp; (tau2 * E / np_pi)%Qc].

Definition lut_blob (config : Config) (outputs : list (list Qc)) : LutDict :=
  [("config"%string, EConfig config); ("outputs"%string, ERows outputs)].

(** [build_LUT(config)]: [AeroProfile.__dict__[...]] raises [KeyError] on
    an unknown profile before any run; otherwise one 6S run per
    permutation, then the pickle dump of [{'config':..., 'outputs':...}]. *)
Definition build_LUT (config : Config) (w : World) : result World :=
  if aerosol_known (aerosol_profile config) then
    let perms := permutate_invars (invars config) in
    let outputs := map (sixs_sample config) perms in
    let w' := fold_left (fun w _ => count_sim w) perms w in
    Ok (dump (filepath config) (FLut (lut_blob config outputs)) w')
  else Err KeyError.

(** A stop of [main]: [sys.exit(code)] or an uncaught exception. *)
Inductive Stop : Type :=
| SExit (code : Z)
| SRaise (e : exc).

(** The user-defined wavelength block of [main]. *)
Definition wavelength_spectrum (wavelength spectral_filter : option (list string))
  : Stop + option Spectrum :=
  match truthy_list wavelength with
  | None => inr None
  | Some wl =>
      if (2 <? List.length wl)%nat then inl (SExit 1)
      else match py_float (nth 0 wl ""%string) with
           | None => inl (SRaise ValueError)
           | Some start_wavelength =>
               if Nat.eqb (List.length wl) 2 then
                 match py_float (nth 1 wl ""%string) with
                 | None => inl (SRaise ValueError)
                 | Some end_wavelength =>
                     match truthy_list spectral_filter with
                     | Some filt =>
                         let n := ((end_wavelength - start_wavelength) / qc 25 10000 + 1)%Qc in
                         let l := Q2Qc (Z.of_nat (List.length filt) # 1) in
                         let d := (l - n)%Qc in
                         let ad := if Qclt_le_dec d 0 then (- d)%Qc else d in
                         if Qclt_le_dec (qc 1 1000000) ad then inl (SExit 1)
                         else inr (Some (WlFiltered start_wavelength end_wavelength filt))
                     | None => inr (Some (WlRange start_wavelength end_wavelength))
                     end
                 end
               else inr (Some (WlSingle start_wavelength))
           end
  end.

Definition recognized_build_types : list string := ["test"; "test2"; "full"; "validation"]%string.

(** Everything [main] decides before it touches the store: the spectrum,
    the aerosol profile, the build type and the resulting [config]. *)
Definition main_config (base_path : string) (args : Args) : Stop + Config :=
  match wavelength_spectrum (arg_wavelength args) (arg_filter args) with
  | inl s => inl s
  | inr spec0 =>
  let spec1 :=
    match truthy_str (arg_channel args) with
    | Some ch => if channel_known ch then inr (Some (WlChannel ch)) else inl (SExit 1)
    | None => inr spec0
    end in
  match spec1 with
  | inl s => inl s
  | inr None => inl (SExit 1)
  | inr (Some spectrum) =>
  let aero :=
    match truthy_str (arg_aerosol args) with
    | Some a => if aerosol_known a then inr a else inl (SExit 1)
    | None => inr "Continental"%string
    end in
  match aero with
  | inl s => inl s
  | inr aerosol_profile =>
  let bt :=
    match truthy_str (arg_build_type args) with
    | Some b => if existsb (String.eqb b) recognized_build_types then inr b else inl (SExit 1)
    | None => inr "test"%string
    end in
  match bt with
  | inl s => inl s
  | inr build_type =>
  match input_variables build_type with
  | None => inl (SRaise KeyError)
  | Some iv =>
      let '(od, fname, fpath) := IO_handler base_path aerosol_profile 0 args in
      inr {| spectrum := spectrum; aerosol_profile := aerosol_profile; view_zenith := 0;
             build_type := build_type; invars := iv;
             outdir := od; filename := fname; filepath := fpath |}
  end end end end end.

(** [LUT_build.main()]: build the LUT unless its file already exists. *)
Definition main (base_path : string) (args : Args) (w : World) : Outcome * World :=
  match main_config base_path args with
  | inl (SExit c) => (Exited c, w)
  | inl (SRaise e) => (Raised e, w)
  | inr config =>
      if isfile w (filepath config) then (Finished, w)
      else match build_LUT config w with
           | Ok w' => (Finished, w')
           | Err e => (Raised e, w)
           end
  end.


(** ** Interpolator construction *)

(** [[r[j] for r in rows]]: [IndexError] on a row that is too short. *)
Definition column (rows : list (list Qc)) (j : nat) : result (list Qc) :=
  if forallb (fun r => (j <? List.length r)%nat) rows
  then Ok (map (fun r => nth j r 0%Qc) rows) else Err IndexError.

(** [list(zip( *cs))] for columns of one length. *)
Definition zip_columns (cs : list (list Qc)) : list (list Qc) :=
  map (fun i => map (fun c => nth i c 0%Qc) cs) (seq 0 (List.length (hd [] cs))).

Definition load_lut (w : World) (p : string) : result LutDict :=
  match files w p with
  | Some (FLut d) => Ok d
  | Some (FIlut _) => Err TypeError
  | None => Err FileNotFoundError
  end.

Definition as_rows (e : LutEntry) : result (list (list Qc)) :=
  match e with ERows r => Ok r | _ => Err TypeError end.

(** [LUT_interpolate.create_interpolator(filename)] *)
Definition create_interpolator (w : World) (fname : string) : result Interp :=
  let* LUT := load_lut w fname in
  let* inp := getitem LUT "inputs" in
  let* inputs := match inp with
                  | EDict d => let* p := getitem d "permutations" in as_rows p
                  | _ => Err TypeError
                  end in
  let* outp := getitem LUT "outputs" in
  let* outputs := as_rows outp in
  let* solar_z := column inputs 0 in let* H2O := column inputs 1 in
  let* O3 := column inputs 2 in let* AOT := column inputs 3 in
  let* alt := column inputs 4 in
  let* Edir := column outputs 0 in let* Edif := column outputs 1 in
  let* tau2 := column outputs 2 in let* Lp := column outputs 3 in
  let* interpolator := LinearNDInterpolator (zip_columns [solar_z; H2O; O3; AOT; alt])
                                            (zip_columns [Edir; Edif; tau2; Lp]) in
  (* sanity check at i = 0 *)
  match solar_z with
  | [] => Err IndexError
  | _ => Ok interpolator
  end.

(** The [for fname in fnames] loop of [LUT_interpolate.main]; the working
    directory is [lut_path] and [fnames] is the sorted [glob('*.lut')]. *)
Fixpoint lut_interpolate_loop (lut_path ilut_path : string) (fnames : list string)
  (w : World) : Outcome * World :=
  match fnames with
  | [] => (Finished, w)
  | fname :: rest =>
      let fid := strip_ext ".lut" fname in
      let ilut_filepath := path_join ilut_path (fid ++ ".ilut") in
      if isfile w ilut_filepath then lut_interpolate_loop lut_path ilut_path rest w
      else match create_interpolator w (path_join lut_path fname) with
           | Ok interpolator =>
               lut_interpolate_loop lut_path ilut_path rest
                 (dump ilut_filepath (FIlut interpolator) (count_interp w))
           | Err e => (Raised e, w)
           end
  end.

(** The permutations [Interpolated_LUTs.interpolate_LUTs] re-derives from
    [LUT['config']['invars']]. *)
Definition inputs_of_lut (LUT : LutDict) : result (list Perm) :=
  let* c := getitem LUT "config" in
  match c with
  | EConfig config =>
      let iv := invars config in
      Ok (itertools_product [solar_zs iv; H2Os iv; O3s iv; AOTs iv; alts iv])
  | _ => Err TypeError
  end.

(** The [try: for fpath in filepaths: ...] block of
    [Interpolated_LUTs.interpolate_LUTs]; [filepaths] is the sorted glob of
    [LUTs_dir]. An exception ends the loop ([except: print(...)]) and keeps
    what was written so far. *)
Fixpoint interpolate_LUTs_loop (iLUTs_dir : string) (filepaths : list string)
  (w : World) : World :=
  match filepaths with
  | [] => w
  | fpath :: rest =>
      let fname := basename fpath in
      let fid := strip_ext ".lut" fname in
      let ilut_filepath := path_join iLUTs_dir (fid ++ ".ilut") in
      if isfile w ilut_filepath then interpolate_LUTs_loop iLUTs_dir rest w
      else
        let built :=
          let* LUT := load_lut w fpath in
          let* inputs := inputs_of_lut LUT in
          let* outs := getitem LUT "outputs" in
          let* outputs := as_rows outs in
          LinearNDInterpolator inputs outputs in
        match built with
        | Ok interpolator =>
            interpolate_LUTs_loop iLUTs_dir rest
              (dump ilut_filepath (FIlut interpolator) (count_interp w))
        | Err _ => w
        end
  end.

End Pipeline.

(** ** Spec-side definitions for the validation formulas *)

(** An output vector [(Edir, Edif, tau2, Lp)] of finite values, as a row
    of [sixs_outputs] or [estimated_outputs]. *)
Definition OutVec := (Qc * Qc * Qc * Qc)%type.

Definition row4 (v : OutVec) : list flt :=
  let '(Edir, Edif, tau2, Lp) := v in [Fin Edir; Fin Edif; Fin tau2; Fin Lp].

(** forward: radiance = reflectance * transmissivity * (direct + diffuse) / pi + path radiance *)
Definition forward_radiance (ref : Qc) (v : OutVec) : Qc :=
  let '(Edir, Edif, tau2, Lp) := v in (ref * tau2 * (Edir + Edif) / np_pi + Lp)%Qc.

(** transmissivity * (direct + diffuse) *)
Definition denominator (v : OutVec) : Qc :=
  let '(Edir, Edif, tau2, Lp) := v in (tau2 * (Edir + Edif))%Qc.

(** inverse: reflectance = pi * (radiance - path radiance) / (transmissivity * (direct + diffuse)) *)
Definition inverse_reflectance (rad : Qc) (v : OutVec) : flt :=
  let '(Edir, Edif, tau2, Lp) := v in
  fdiv (Fin (np_pi * (rad - Lp))%Qc) (Fin (denominator v)).

Definition count_nan (xs : list flt) : nat := List.length (filter is_nan xs).

(** ** A concrete environment for the witnesses *)

Definition demo_run (_ : SixSParams) : SixSOutputs :=
  mkSixSOutputs (qc 1 1) (qc 1 1) (qc 9 10) (qc 8 10) (qc 1 10).
Definition demo_channel_known (c : string) : bool := String.eqb c "S2A_MSI_01".
Definition demo_aerosol_known (a : string) : bool := String.eqb a "Continental".
Definition demo_py_float (_ : string) : option Qc := None.
Definition demo_LinearND (_ _ : list (list Qc)) : result unit := Ok tt.
Definition demo_world : World unit := mkWorld unit (fun _ => None) 0 0.
Definition demo_args (bt : option string) : Args :=
  mkArgs (Some "S2A_MSI_01"%string) None None None bt.
Definition demo_base : string := "/opt/6S_emulator".
Definition demo_config : Config := {|
  spectrum := WlChannel "S2A_MSI_01";
  aerosol_profile := "Continental";
  view_zenith := 0;
  build_type := "test";
  invars := test_grid;
  outdir := "/opt/6S_emulator/files/LUTs/S2A_MSI/Continental/view_zenith_0";
  filename := "S2A_MSI_01.lut";
  filepath := "/opt/6S_emulator/files/LUTs/S2A_MSI/Continental/view_zenith_0/S2A_MSI_01.lut" |}.

(** The product of a list of pools, by recursion on the pools: the
    first pool varies slowest. *)
Fixpoint cart {A : Type} (pools : list (list A)) : list (list A) :=
  match pools with
  | [] => [[]]
  | p :: ps => flat_map (fun y => map (cons y) (cart ps)) p
  end.

(** The same command line with another [--build_type] value. *)
Definition with_build_type (args : Args) (bt : option string) : Args :=
  mkArgs (arg_channel args) (arg_wavelength args) (arg_filter args) (arg_aerosol args) bt.

(** A command line with the given [--wavelength] values and the default channel. *)
Definition demo_args_wl (wl : list string) : Args :=
  mkArgs (Some "S2A_MSI_01"%string) (Some wl) None None None.

(** ** [bin/interpolated_LUTs.py]: the [Interpolated_LUTs] object *)

(** Earth Engine mission to Py6S sensor name. *)
Definition py6S_sensor_names : list (string * string) :=
  [("COPERNICUS/S2", "S2A_MSI"); ("LANDSAT/LC8_L1T", "LANDSAT_OLI");
   ("LANDSAT/LE7_L1T", "LANDSAT_ETM"); ("LANDSAT/LT5_L1T", "LANDSAT_TM");
   ("LANDSAT/LT4_L1T", "LANDSAT_TM")]%string.

(** Earth Engine Sentinel 2 bandName from Py6S bandName. *)
Definition ee_sentinel2_bandNames : list (string * string) :=
  [("01", "B1"); ("02", "B2"); ("03", "B3"); ("04", "B4"); ("05", "B5");
   ("06", "B6"); ("07", "B7"); ("08", "B8"); ("09", "B8A"); ("10", "B9");
   ("11", "B10"); ("12", "B11"); ("13", "B12")]%string.

(** The attributes [__init__] sets. *)
Record ILUTs := mkILUTs {
  mission : string;
  py6S_sensor : string;
  files_dir : string;
  iLUTs_dir : string;
  LUTs_dir : string
}.

(** [Interpolated_LUTs(mission)]; [base_path] is
    [os.path.dirname(bin_path)], the directory above [bin/]. Creating a
    missing [files] directory is not modelled (no file is written). *)
Definition Interpolated_LUTs_init (base_path mission : string) : result ILUTs :=
  let* sensor := getitem py6S_sensor_names mission in
  let fdir := path_join base_path "files" in
  Ok {| mission := mission; py6S_sensor := sensor; files_dir := fdir;
        iLUTs_dir := path_join (path_join (path_join (path_join fdir "iLUTs") sensor)
                                 "Continental") "view_zenith_0";
        LUTs_dir := path_join (path_join (path_join (path_join fdir "LUTs") sensor)
                                "Continental") "view_zenith_0" |}.

(** [s[-2:]] *)
Definition last2 (s : string) : string := String.substring (String.length s - 2) 2 s.

(** [bandName] in [get]: [os.path.basename(f).split('.')[0][-2:]], renamed
    through [ee_sentinel2_bandNames] for Sentinel 2 ([KeyError] if absent). *)
Definition band_name (il : ILUTs) (f : string) : result string :=
  let b := last2 (hd EmptyString (py_split "."%char (basename f))) in
  if String.eqb (mission il) "COPERNICUS/S2" then getitem ee_sentinel2_bandNames b
  else Ok b.

(** [d[k] = v] on a dict: replaces the value of an existing key in place,
    appends a new key at the end. *)
Fixpoint dict_set {V : Type} (d : list (string * V)) (k : string) (v : V)
  : list (string * V) :=
  match d with
  | [] => [(k, v)]
  | (k', v') :: r => if String.eqb k' k then (k', v) :: r else (k', v') :: dict_set r k v
  end.

Section ILUTsGet.

Variable Interp : Type.

(** [pickle.load(open(p, 'rb'))]: whatever object is stored at [p]. *)
Definition pickle_load (w : World Interp) (p : string) : result (File Interp) :=
  match files Interp w p with Some f => Ok f | None => Err FileNotFoundError end.

(** The [try: for f in filepaths: ...] block of [get]: an exception ends
    the loop ([except: print(...)]), keeping the entries loaded so far. *)
Fixpoint get_loop (il : ILUTs) (filepaths : list string) (w : World Interp)
  (iLUTs : list (string * File Interp)) : list (string * File Interp) :=
  match filepaths with
  | [] => iLUTs
  | f :: rest =>
      match band_name il f with
      | Err _ => iLUTs
      | Ok b =>
          match pickle_load w f with
          | Err _ => iLUTs
          | Ok x => get_loop il rest w (dict_set iLUTs b x)
          end
      end
  end.

(** [Interpolated_LUTs.get()]; [filepaths] is the result of
    [glob.glob(self.iLUTs_dir+os.path.sep+'*.ilut')] (with no files, both
    branches return the empty [self.iLUTs]). *)
Definition get (il : ILUTs) (filepaths : list string) (w : World Interp)
  : list (string * File Interp) :=
  get_loop il filepaths w [].

End ILUTsGet.

(** ** [z/validation/Deterministic/LUT_validation_stats.py]: [get_stats] *)

Section GetStats.

Variable sqrt_q : Qc -> Qc.
Variable Interp : Type.
(** Calling an interpolator on one input tuple: [iLUT(i)]. *)
Variable iLUT_call : Interp -> list Qc -> list flt.

(** [estimated_outputs.append(iLUT(i)) for i in inputs]; calling a
    loaded object that is not an interpolator raises [TypeError]. *)
Fixpoint estimate_all (iLUT : File Interp) (inputs : list (list Qc))
  : result (list (list flt)) :=
  match inputs with
  | [] => Ok []
  | i :: rest =>
      match iLUT with
      | FIlut _ it => let* r := estimate_all iLUT rest in Ok (iLUT_call it i :: r)
      | FLut _ _ => Err TypeError
      end
  end.

(** [get_stats(vLUT_path, iLUT_path, ref)] *)
Definition get_stats (vLUT_path iLUT_path : string) (ref : flt) (w : World Interp)
  : result ValidationResult :=
  let* v := pickle_load Interp w vLUT_path in
  let* iLUT := pickle_load Interp w iLUT_path in
  let* vLUT := match v with FLut _ d => Ok d | FIlut _ _ => Err TypeError end in
  let* inp := getitem vLUT "inputs" in
  let* inputs := match inp with
                  | EDict d => let* p := getitem d "permutations" in as_rows p
                  | _ => Err TypeError
                  end in
  let* outs := getitem vLUT "outputs" in
  let* sixs_outputs := as_rows outs in
  let* estimated_outputs := estimate_all iLUT inputs in
  reflectance_stats sqrt_q ref (map (map Fin) sixs_outputs) estimated_outputs.

End GetStats.

(** ** A concrete [Interpolated_LUTs('COPERNICUS/S2')] and files for the witnesses *)

Definition demo_iluts : ILUTs :=
  match Interpolated_LUTs_init demo_base "COPERNICUS/S2" with
  | Ok il => il
  | Err _ => mkILUTs "" "" "" "" ""
  end.

Definition demo_ilut_path (band : string) : string :=
  path_join (iLUTs_dir demo_iluts) ("S2A_MSI_" ++ band ++ ".ilut").

Definition demo_ilut_world : World unit :=
  mkWorld unit (fun p => if existsb (String.eqb p) [demo_ilut_path "01"; demo_ilut_path "02";
                                                   demo_ilut_path "14"]
                         then Some (FIlut unit tt) else None) 0 0.



(** * Theorems *)

(** ** ParameterSpace *)

Lemma flat_map_map_singleton {A : Type} (acc : list (list A)) :
  flat_map (fun x => [x ++ []]) acc = acc.
Proof.
  induction acc as [|x acc IH]; simpl; [reflexivity|].
  rewrite app_nil_r, IH. reflexivity.
Qed.

Lemma flat_map_flat_map {A B C : Type} (f : B -> list C) (g : A -> list B) (l : list A) :
  flat_map f (flat_map g l) = flat_map (fun x => flat_map f (g x)) l.
Proof.
  induction l as [|x l IH]; simpl; [reflexivity|].
  rewrite flat_map_app, IH. reflexivity.
Qed.

Lemma flat_map_map {A B C : Type} (f : B -> list C) (g : A -> B) (l : list A) :
  flat_map f (map g l) = flat_map (fun x => f (g x)) l.
Proof.
  induction l as [|x l IH]; simpl; [reflexivity|]. rewrite IH. reflexivity.
Qed.

Lemma map_flat_map {A B C : Type} (f : B -> C) (g : A -> list B) (l : list A) :
  map f (flat_map g l) = flat_map (fun x => map f (g x)) l.
Proof.
  induction l as [|x l IH]; simpl; [reflexivity|]. rewrite map_app, IH. reflexivity.
Qed.

Lemma flat_map_ext_eq {A B : Type} (f g : A -> list B) (l : list A) :
  (forall x, f x = g x) -> flat_map f l = flat_map g l.
Proof.
  intros H. induction l as [|x l IH]; simpl; [reflexivity|]. rewrite H, IH. reflexivity.
Qed.

(** The doc loop started from any accumulator. *)
Lemma product_fold_acc {A : Type} (pools : list (list A)) (acc : list (list A)) :
  fold_left (fun result pool => flat_map (fun x => map (fun y => x ++ [y]) pool) result)
            pools acc
  = flat_map (fun x => map (fun t => x ++ t) (cart pools)) acc.
Proof.
  revert acc. induction pools as [|p ps IH]; intros acc; simpl.
  - symmetry. apply flat_map_map_singleton.
  - rewrite IH, flat_map_flat_map. apply flat_map_ext_eq. intros x.
    rewrite flat_map_map, map_flat_map. apply flat_map_ext_eq. intros y.
    rewrite map_map. apply map_ext. intros t. rewrite <- app_assoc. reflexivity.
Qed.

Lemma itertools_product_cart {A : Type} (pools : list (list A)) :
  itertools_product pools = cart pools.
Proof.
  unfold itertools_product. rewrite product_fold_acc. simpl.
  rewrite app_nil_r. apply map_id.
Qed.

Lemma length_flat_map_cons {A : Type} (p : list A) (c : list (list A)) :
  List.length (flat_map (fun y => map (cons y) c) p) = (List.length p * List.length c)%nat.
Proof.
  induction p as [|y p IH]; simpl; [reflexivity|].
  rewrite length_app, length_map, IH. reflexivity.
Qed.

Lemma length_cart {A : Type} (pools : list (list A)) :
  List.length (cart pools) = fold_right Nat.mul 1%nat (map (@List.length A) pools).
Proof.
  induction pools as [|p ps IH]; simpl; [reflexivity|].
  rewrite length_flat_map_cons, IH. reflexivity.
Qed.

(** C1: [permutate_invars] is the Cartesian product of the five dimension
    sequences in the order solar_z, H2O, O3, AOT, altitude, enumerated by
    nested iteration with the first dimension varying slowest, and its
    length is the product of the five sequence lengths. *)
Theorem permutate_invars_nested_product (g : Grid) :
  permutate_invars g = nested_product5 g /\
  List.length (permutate_invars g) = grid_size g.
Proof.
  unfold permutate_invars. rewrite itertools_product_cart. split.
  - unfold nested_product5. simpl. apply flat_map_ext_eq. intros s.
    rewrite map_flat_map. apply flat_map_ext_eq. intros h.
    rewrite !map_flat_map. apply flat_map_ext_eq. intros o.
    rewrite !map_flat_map. apply flat_map_ext_eq. intros a.
    rewrite !map_flat_map.
    induction (alts g) as [|z zs IH]; [reflexivity|]. simpl. f_equal.
  - unfold Perm. rewrite length_cart. unfold grid_size. simpl. lia.
Qed.

Lemma mid_points_cons (a : Qc) (rest : list Qc) :
  map (fun v => (v / qc 2 1)%Qc) (np_add rest (removelast (a :: rest)))
  = consecutive_midpoints (a :: rest).
Proof.
  revert a. induction rest as [|b r IH]; intros a; [reflexivity|].
  change (removelast (a :: b :: r)) with (a :: removelast (b :: r)).
  cbn [np_add map]. rewrite IH. rewrite (Qcplus_comm b a). reflexivity.
Qed.

Lemma length_consecutive_midpoints (a : Qc) (rest : list Qc) :
  List.length (consecutive_midpoints (a :: rest)) = List.length rest.
Proof.
  revert a. induction rest as [|b r IH]; intros a; [reflexivity|].
  simpl. f_equal. apply IH.
Qed.

(** C5: on a non-empty sequence [v0..vn], [mid_points] returns
    [(v0+v1)/2, ..., (v(n-1)+vn)/2] and is exactly one element shorter. *)
Theorem mid_points_consecutive (l : list Qc) (Hl : l <> []) :
  mid_points l = consecutive_midpoints l /\ S (List.length (mid_points l)) = List.length l.
Proof.
  destruct l as [|a rest]; [contradiction|].
  assert (E : mid_points (a :: rest) = consecutive_midpoints (a :: rest))
    by (unfold mid_points, slice_from1, slice_to_last; simpl tl; apply mid_points_cons).
  split; [exact E|]. rewrite E, length_consecutive_midpoints. reflexivity.
Qed.

Lemma mid_points_consecutive_witness :
  solar_zs full_grid <> [] /\
  mid_points (solar_zs full_grid) = consecutive_midpoints (solar_zs full_grid) /\
  S (List.length (mid_points (solar_zs full_grid))) = List.length (solar_zs full_grid).
Proof.
  split; [discriminate|]. apply mid_points_consecutive. discriminate.
Defined.

(** The validation grid is the midpoint grid of the full grid. *)
Lemma validation_grid_midpoints :
  input_variables "validation" = Some {|
    solar_zs := consecutive_midpoints (solar_zs full_grid);
    H2Os := consecutive_midpoints (H2Os full_grid);
    O3s := consecutive_midpoints (O3s full_grid);
    AOTs := consecutive_midpoints (AOTs full_grid);
    alts := consecutive_midpoints (alts full_grid) |}.
Proof.
  vm_compute. reflexivity.
Qed.

(** ** SampleRunner and TableStore *)

Lemma dump_files_same (Interp : Type) (p : string) (f : File Interp) (w : World Interp) :
  files Interp (dump Interp p f w) p = Some f.
Proof. simpl. rewrite String.eqb_refl. reflexivity. Qed.

Lemma build_LUT_ok (sixs_run : SixSParams -> SixSOutputs) (aerosol_known : string -> bool)
  (Interp : Type) (config : Config) (w w' : World Interp) :
  build_LUT sixs_run aerosol_known Interp config w = Ok w' ->
  load_lut Interp w' (filepath config)
  = Ok (lut_blob config (map (sixs_sample sixs_run config) (permutate_invars (invars config)))).
Proof.
  unfold build_LUT. destruct (aerosol_known (aerosol_profile config)); [|discriminate].
  intros H. injection H as <-. unfold load_lut. rewrite dump_files_same. reflexivity.
Qed.

(** C2: the permutations [Interpolated_LUTs.interpolate_LUTs] re-derives
    from the grid stored in a LUT written by [build_LUT] are, element by
    element and in order, the permutations the build iterated over; the
    stored outputs are the 6S results in that same order. *)
Theorem interpolate_LUTs_reuses_build_order (sixs_run : SixSParams -> SixSOutputs)
  (aerosol_known : string -> bool) (Interp : Type) (config : Config) (w w' : World Interp)
  (Hb : build_LUT sixs_run aerosol_known Interp config w = Ok w') :
  exists LUT,
    load_lut Interp w' (filepath config) = Ok LUT /\
    inputs_of_lut LUT = Ok (permutate_invars (invars config)) /\
    getitem LUT "outputs"
    = Ok (ERows (map (sixs_sample sixs_run config) (permutate_invars (invars config)))).
Proof.
  eexists. split; [exact (build_LUT_ok _ _ _ _ _ _ Hb)|]. split; reflexivity.
Qed.

(** The configuration [main] derives from the demo arguments. *)
Lemma demo_main_config_test :
  main_config demo_channel_known demo_aerosol_known demo_py_float demo_base
    (demo_args (Some "test"%string)) = inr demo_config.
Proof. vm_compute. reflexivity. Qed.

Lemma interpolate_LUTs_reuses_build_order_witness :
  exists w',
    build_LUT demo_run demo_aerosol_known unit demo_config demo_world = Ok w' /\
    exists LUT,
      load_lut unit w' (filepath demo_config) = Ok LUT /\
      inputs_of_lut LUT = Ok (permutate_invars (invars demo_config)) /\
      getitem LUT "outputs"
      = Ok (ERows (map (sixs_sample demo_run demo_config)
                       (permutate_invars (invars demo_config)))).
Proof.
  pose (w' := match build_LUT demo_run demo_aerosol_known unit demo_config demo_world with
              | Ok w => w | Err _ => demo_world end).
  assert (Hb : build_LUT demo_run demo_aerosol_known unit demo_config demo_world = Ok w')
    by (vm_compute; reflexivity).
  exists w'. split; [exact Hb|].
  exact (interpolate_LUTs_reuses_build_order demo_run demo_aerosol_known unit demo_config
           demo_world w' Hb).
Defined.

(** C3 (the writer's side of the format mismatch): the LUT [build_LUT]
    persists is the dict [{'config': config, 'outputs': outputs}]. Loading
    it back returns the same configuration (holding the parameter grid as
    [invars], from which [permutate_invars] recovers the permutation order)
    and the same outputs, one per permutation; the dict has no [inputs]
    entry, which [create_interpolator] reads. *)
Theorem build_LUT_persisted_blob (sixs_run : SixSParams -> SixSOutputs)
  (aerosol_known : string -> bool) (Interp : Type) (config : Config) (w w' : World Interp)
  (Hb : build_LUT sixs_run aerosol_known Interp config w = Ok w') :
  let outputs := map (sixs_sample sixs_run config) (permutate_invars (invars config)) in
  exists LUT,
    load_lut Interp w' (filepath config) = Ok LUT /\
    map fst LUT = ["config"; "outputs"]%string /\
    getitem LUT "config" = Ok (EConfig config) /\
    getitem LUT "outputs" = Ok (ERows outputs) /\
    List.length outputs = List.length (permutate_invars (invars config)) /\
    getitem LUT "inputs" = Err KeyError.
Proof.
  intros outputs. exists (lut_blob config outputs).
  split; [exact (build_LUT_ok _ _ _ _ _ _ Hb)|].
  split; [reflexivity|]. split; [reflexivity|]. split; [reflexivity|].
  split; [apply length_map | reflexivity].
Qed.

Lemma build_LUT_persisted_blob_witness :
  exists w',
    build_LUT demo_run demo_aerosol_known unit demo_config demo_world = Ok w' /\
    let outputs := map (sixs_sample demo_run demo_config)
                       (permutate_invars (invars demo_config)) in
    exists LUT,
      load_lut unit w' (filepath demo_config) = Ok LUT /\
      map fst LUT = ["config"; "outputs"]%string /\
      getitem LUT "config" = Ok (EConfig demo_config) /\
      getitem LUT "outputs" = Ok (ERows outputs) /\
      List.length outputs = List.length (permutate_invars (invars demo_config)) /\
      getitem LUT "inputs" = Err KeyError.
Proof.
  pose (w' := match build_LUT demo_run demo_aerosol_known unit demo_config demo_world with
              | Ok w => w | Err _ => demo_world end).
  assert (Hb : build_LUT demo_run demo_aerosol_known unit demo_config demo_world = Ok w')
    by (vm_compute; reflexivity).
  exists w'. split; [exact Hb|].
  exact (build_LUT_persisted_blob demo_run demo_aerosol_known unit demo_config
           demo_world w' Hb).
Defined.

(** C3 counterexample: after [LUT_build.main] has built the test LUT, the
    loaded dict does not hold the permutation sequence that
    [create_interpolator] reads as [LUT['inputs']['permutations']]: the
    reader fails with [KeyError]. *)
Lemma build_LUT_blob_lacks_permutations :
  let w1 := snd (main demo_run demo_channel_known demo_aerosol_known demo_py_float unit
                   demo_base (demo_args (Some "test"%string)) demo_world) in
  fst (main demo_run demo_channel_known demo_aerosol_known demo_py_float unit
         demo_base (demo_args (Some "test"%string)) demo_world) = Finished /\
  (exists LUT, load_lut unit w1 (filepath demo_config) = Ok LUT /\
               getitem LUT "inputs" = Err KeyError) /\
  create_interpolator unit demo_LinearND w1 (filepath demo_config) = Err KeyError.
Proof.
  intros w1. split; [vm_compute; reflexivity|].
  split; [|vm_compute; reflexivity].
  eexists. split; [vm_compute; reflexivity | reflexivity].
Qed.

(** ** ValidationEngine *)

Lemma combine_map_same {A B C : Type} (g : A -> B) (h : A -> C) (l : list A) :
  combine (map g l) (map h l) = map (fun x => (g x, h x)) l.
Proof. induction l as [|x l IH]; simpl; [reflexivity|]. rewrite IH. reflexivity. Qed.

Lemma np_binop_map (f : flt -> flt -> flt) {A : Type} (g h : A -> flt) (l : list A) :
  np_binop f (map g l) (map h l) = Ok (map (fun x => f (g x) (h x)) l).
Proof.
  unfold np_binop. rewrite !length_map, Nat.eqb_refl, combine_map_same, map_map.
  reflexivity.
Qed.

Lemma np_array_rows {A : Type} (f : A -> OutVec) (l : list A) (Hne : l <> []) :
  np_array (map (fun x => row4 (f x)) l) = Ok (Arr2 (map (fun x => row4 (f x)) l) 4).
Proof.
  destruct l as [|x l]; [contradiction|].
  unfold np_array. cbn [map].
  replace (forallb _ _) with true.
  - destruct (f x) as [[[a b] c] d]. reflexivity.
  - symmetry. apply forallb_forall. intros r Hr.
    change (In r (map (fun y => row4 (f y)) (x :: l))) in Hr.
    apply in_map_iff in Hr. destruct Hr as [y [<- _]].
    destruct (f x) as [[[a b] c] d]; destruct (f y) as [[[a' b'] c'] d']; reflexivity.
Qed.

Lemma np_col_rows {A : Type} (rows : list A) (g : A -> list flt) (j : nat) (Hj : (j < 4)%nat) :
  np_col (Arr2 (map g rows) 4) j = Ok (map (fun x => nth j (g x) NaN) rows).
Proof.
  unfold np_col. apply Nat.ltb_lt in Hj. rewrite Hj, map_map. reflexivity.
Qed.

Lemma np_pi_nonzero : np_pi <> 0%Qc.
Proof.
  intros H. apply (f_equal (fun q : Qc => Qnum (this q))) in H.
  vm_compute in H. discriminate.
Qed.

Lemma Qc_eq_bool_false (x y : Qc) : x <> y -> Qc_eq_bool x y = false.
Proof.
  intros H. unfold Qc_eq_bool. destruct (Qc_eq_dec x y); [contradiction|reflexivity].
Qed.

Lemma Qc_eq_bool_refl (x : Qc) : Qc_eq_bool x x = true.
Proof. unfold Qc_eq_bool. destruct (Qc_eq_dec x x); [reflexivity|contradiction]. Qed.

Lemma fdiv_fin (x y : Qc) : y <> 0%Qc -> fdiv (Fin x) (Fin y) = Fin (x / y)%Qc.
Proof. intros H. simpl. rewrite (Qc_eq_bool_false _ _ H). reflexivity. Qed.

(** The two arrays of [reflectance_stats] on rows of finite values, the
    truth and estimate of the same trial paired up. *)
Lemma rs_radiance_interp_rows (ref : Qc) (cl : list (OutVec * OutVec)) (Hne : cl <> []) :
  rs_radiance_interp (Fin ref) (map (fun p => row4 (fst p)) cl) (map (fun p => row4 (snd p)) cl)
  = Ok (map (fun p => Fin (forward_radiance ref (fst p))) cl,
        map (fun p => inverse_reflectance (forward_radiance ref (fst p)) (snd p)) cl).
Proof.
  unfold rs_radiance_interp.
  rewrite (np_array_rows fst cl Hne), (np_array_rows snd cl Hne). cbn [bind].
  rewrite !np_col_rows by lia. cbn [bind].
  unfold at_sensor_radiance. rewrite map_map, np_binop_map. cbn [bind].
  rewrite np_binop_map. cbn [bind]. rewrite map_map, np_binop_map. cbn [bind].
  unfold surface_reflectance. rewrite np_binop_map. cbn [bind].
  rewrite np_binop_map. cbn [bind]. rewrite np_binop_map. cbn [bind].
  rewrite map_map, np_binop_map. cbn [bind].
  f_equal. f_equal.
  - apply map_ext. intros [[[[Edir Edif] tau2] Lp] v2]. reflexivity.
  - apply map_ext. intros [v1 [[[Edir Edif] tau2] Lp]].
    destruct v1 as [[[a b] c] d]. reflexivity.
Qed.

Lemma map_fst_combine {A B : Type} (l : list A) (l' : list B) :
  List.length l = List.length l' -> map fst (combine l l') = l.
Proof.
  revert l'. induction l as [|x l IH]; intros [|y l'] H; simpl in *; try discriminate; [reflexivity|].
  rewrite IH by lia. reflexivity.
Qed.

Lemma map_snd_combine {A B : Type} (l : list A) (l' : list B) :
  List.length l = List.length l' -> map snd (combine l l') = l'.
Proof.
  revert l'. induction l as [|x l IH]; intros [|y l'] H; simpl in *; try discriminate; [reflexivity|].
  rewrite IH by lia. reflexivity.
Qed.

(** C6: on [N >= 1] trials whose truth and estimated output vectors
    [(Edir, Edif, tau2, Lp)] are finite, [reflectance_stats] computes, per
    trial, the at-sensor radiance [ref * tau2 * (Edir + Edif) / pi + Lp] from
    the truth vector and the reflectance
    [pi * (radiance - Lp') / (tau2' * (Edir' + Edif'))] from the estimated
    vector; the last division is the ordinary quotient whenever its
    divisor is non-zero. *)
Theorem reflectance_stats_formulas (ref : Qc) (truth est : list OutVec)
  (Hlen : List.length truth = List.length est) (Hne : truth <> []) :
  rs_radiance_interp (Fin ref) (map row4 truth) (map row4 est)
  = Ok (map (fun v => Fin (forward_radiance ref v)) truth,
        map (fun p => inverse_reflectance (forward_radiance ref (fst p)) (snd p))
            (combine truth est)) /\
  (forall (rad Edir Edif tau2 Lp : Qc), (tau2 * (Edir + Edif))%Qc <> 0%Qc ->
     inverse_reflectance rad (Edir, Edif, tau2, Lp)
     = Fin (np_pi * (rad - Lp) / (tau2 * (Edir + Edif)))%Qc).
Proof.
  split.
  - assert (Hcl : combine truth est <> []).
    { destruct truth as [|v t]; [contradiction|]. destruct est as [|e es]; [discriminate|].
      discriminate. }
    pose proof (rs_radiance_interp_rows ref (combine truth est) Hcl) as H.
    rewrite <- (map_map fst row4), <- (map_map snd row4) in H.
    rewrite map_fst_combine, map_snd_combine in H by exact Hlen.
    rewrite H. f_equal. f_equal.
    rewrite <- (map_fst_combine truth est Hlen) at 2. rewrite map_map. reflexivity.
  - intros rad Edir Edif tau2 Lp Hd. unfold inverse_reflectance, denominator.
    apply fdiv_fin. exact Hd.
Qed.

Lemma demo_vec_denominator : denominator (qc 1 1, qc 1 1, qc 9 10, qc 8 10) <> 0%Qc.
Proof.
  intros H. apply (f_equal (fun q : Qc => Qnum (this q))) in H.
  vm_compute in H. discriminate.
Qed.

Lemma reflectance_stats_formulas_witness :
  let truth := [(qc 1 1, qc 1 1, qc 9 10, qc 8 10)] in
  let est := [(qc 1 1, qc 2 1, qc 8 10, qc 7 10)] in
  List.length truth = List.length est /\ truth <> [] /\
  rs_radiance_interp (Fin (qc 1 100)) (map row4 truth) (map row4 est)
  = Ok (map (fun v => Fin (forward_radiance (qc 1 100) v)) truth,
        map (fun p => inverse_reflectance (forward_radiance (qc 1 100) (fst p)) (snd p))
            (combine truth est)).
Proof.
  intros truth est. split; [reflexivity|]. split; [discriminate|].
  exact (proj1 (reflectance_stats_formulas (qc 1 100) truth est eq_refl
                  ltac:(discriminate))).
Defined.

(** Inverse after forward with the same finite vector gives back [ref]. *)
Lemma inverse_forward (ref : Qc) (v : OutVec) :
  denominator v <> 0%Qc -> inverse_reflectance (forward_radiance ref v) v = Fin ref.
Proof.
  destruct v as [[[Edir Edif] tau2] Lp]. unfold inverse_reflectance, forward_radiance.
  intros Hd. rewrite fdiv_fin by exact Hd. f_equal.
  unfold denominator in *. pose proof np_pi_nonzero as Hpi.
  assert (Ht : tau2 <> 0%Qc) by (intros ->; apply Hd; ring).
  assert (He : (Edir + Edif)%Qc <> 0%Qc) by (intros Hz; apply Hd; rewrite Hz; ring).
  field. repeat split; assumption.
Qed.

(** The percentage difference [100*(x-ref)/ref] at [x = ref]. *)
Lemma pd_at_ref (ref : Qc) :
  fdiv (fmul (Fin (qc 100 1)) (fsub (Fin ref) (Fin ref))) (Fin ref)
  = if Qc_eq_bool ref 0 then NaN else Fin 0.
Proof.
  unfold fsub. simpl. rewrite Qcplus_opp_r, Qcmult_0_r.
  destruct (Qc_eq_bool ref 0) eqn:E; [reflexivity|].
  unfold Qcdiv. rewrite Qcmult_0_l. reflexivity.
Qed.

Lemma rs_same_rows (ref : Qc) (rows : list OutVec) (Hne : rows <> [])
  (Hden : Forall (fun v => denominator v <> 0%Qc) rows) :
  rs_radiance_interp (Fin ref) (map row4 rows) (map row4 rows)
  = Ok (map (fun v => Fin (forward_radiance ref v)) rows, map (fun _ => Fin ref) rows).
Proof.
  assert (Hc : map (fun v => (v, v)) rows <> []) by (destruct rows; [contradiction|discriminate]).
  pose proof (rs_radiance_interp_rows ref (map (fun v => (v, v)) rows) Hc) as H.
  rewrite !map_map in H. simpl in H. etransitivity; [exact H|]. f_equal. f_equal.
  clear H Hc Hne. induction Hden as [|v rows Hv Hrest IH]; [reflexivity|].
  simpl. rewrite inverse_forward by exact Hv. f_equal. exact IH.
Qed.

(** C10 (as amended): for every [ref] and finite output vectors with
    [tau2 * (Edir + Edif) <> 0], inverting the forward radiance with the same
    vector returns exactly [ref] at every trial; the percentage difference
    is then [0] when [ref <> 0], and [nan] ([0/0]) when [ref = 0]. *)
Theorem round_trip_reflectance (ref : Qc) (rows : list OutVec) (Hne : rows <> [])
  (Hden : Forall (fun v => denominator v <> 0%Qc) rows) :
  rs_radiance_interp (Fin ref) (map row4 rows) (map row4 rows)
  = Ok (map (fun v => Fin (forward_radiance ref v)) rows, map (fun _ => Fin ref) rows) /\
  rs_pd (Fin ref) (map row4 rows) (map row4 rows)
  = Ok (map (fun _ => if Qc_eq_bool ref 0 then NaN else Fin 0) rows).
Proof.
  pose proof (rs_same_rows ref rows Hne Hden) as H. split; [exact H|].
  unfold rs_pd. rewrite H. cbn [bind snd]. rewrite map_map. f_equal.
  apply map_ext. intros _. apply pd_at_ref.
Qed.

Lemma round_trip_reflectance_witness :
  let rows := [(qc 1 1, qc 1 1, qc 9 10, qc 8 10)] in
  rows <> [] /\ Forall (fun v => denominator v <> 0%Qc) rows /\
  rs_pd (Fin (qc 1 100)) (map row4 rows) (map row4 rows)
  = Ok (map (fun _ => if Qc_eq_bool (qc 1 100) 0 then NaN else Fin 0) rows).
Proof.
  intros rows.
  assert (Hd : Forall (fun v => denominator v <> 0%Qc) rows)
    by (constructor; [exact demo_vec_denominator | constructor]).
  split; [discriminate|]. split; [exact Hd|].
  exact (proj2 (round_trip_reflectance (qc 1 100) rows ltac:(discriminate) Hd)).
Defined.

(** C10 counterexample: at [ref = 0] with interpolated outputs equal to the
    truth outputs (and [tau2 * (Edir + Edif) <> 0]) the percentage
    difference is [nan], not zero. *)
Lemma round_trip_pd_nan_at_zero_ref :
  denominator (qc 1 1, qc 1 1, qc 9 10, qc 8 10) <> 0%Qc /\
  rs_pd (Fin 0) [row4 (qc 1 1, qc 1 1, qc 9 10, qc 8 10)]
        [row4 (qc 1 1, qc 1 1, qc 9 10, qc 8 10)] = Ok [NaN].
Proof. split; [exact demo_vec_denominator | vm_compute; reflexivity]. Qed.

Lemma py_eq_self (x : flt) : py_eq x x = negb (is_nan x).
Proof. destruct x; simpl; try reflexivity. apply Qc_eq_bool_refl. Qed.

Lemma drop_nans_filter (pd : list flt) :
  drop_nans pd = filter (fun x => negb (is_nan x)) pd.
Proof. unfold drop_nans. apply filter_ext. apply py_eq_self. Qed.

Lemma length_drop_nans (pd : list flt) :
  (List.length (drop_nans pd) + count_nan pd)%nat = List.length pd.
Proof.
  rewrite drop_nans_filter. unfold count_nan.
  induction pd as [|x pd IH]; [reflexivity|].
  destruct x; simpl; lia.
Qed.

(** C7: with [N] trials of which [k] give a [nan] percentage difference,
    the percentage differences kept are exactly the [N - k] non-[nan] ones;
    when [k = N] the statistics fail with [ValueError] ([np.min] of an
    empty array), and when [k < N] mean, standard deviation, min, max and
    the 90/95/99 percentiles of the absolute values are all computed on
    those [N - k] values. *)
Theorem reflectance_stats_nan_exclusion (sqrt_q : Qc -> Qc) (ref : flt)
  (sixs_outputs estimated_outputs : list (list flt)) (pd0 : list flt)
  (Hpd : rs_pd ref sixs_outputs estimated_outputs = Ok pd0) :
  let N := List.length pd0 in
  let k := count_nan pd0 in
  let pd := drop_nans pd0 in
  pd = filter (fun x => negb (is_nan x)) pd0 /\
  List.length pd = (N - k)%nat /\
  (k = N -> reflectance_stats sqrt_q ref sixs_outputs estimated_outputs = Err ValueError) /\
  (k < N -> exists mn mx q,
     np_min pd = Ok mn /\ np_max pd = Ok mx /\
     np_percentile (map fabs pd) [90; 95; 99]%nat = Ok q /\
     reflectance_stats sqrt_q ref sixs_outputs estimated_outputs
     = Ok {| vr_ref := ref; vr_pd := pd;
             vr_stats := (np_mean pd, np_std sqrt_q pd, mn, mx);
             vr_confidence := [("90"%string, nth 0 q NaN); ("95"%string, nth 1 q NaN);
                               ("99"%string, nth 2 q NaN)] |})%nat.
Proof.
  cbv zeta. pose proof (length_drop_nans pd0) as HL.
  split; [apply drop_nans_filter|]. split; [lia|].
  unfold reflectance_stats. rewrite Hpd. cbn [bind].
  destruct (drop_nans pd0) as [|x r] eqn:E; simpl in HL.
  - split; [reflexivity|]. intros Hk. lia.
  - split; [intros Hk; lia|]. intros _.
    do 3 eexists. split; [reflexivity|]. split; [reflexivity|].
    split; reflexivity.
Qed.

Lemma reflectance_stats_nan_exclusion_witness :
  let rows := [row4 (qc 1 1, qc 1 1, qc 9 10, qc 8 10)] in
  rs_pd (Fin 0) rows rows = Ok [NaN] /\
  count_nan [NaN] = List.length [NaN] /\
  reflectance_stats (fun x => x) (Fin 0) rows rows = Err ValueError.
Proof.
  intros rows.
  assert (Hpd : rs_pd (Fin 0) rows rows = Ok [NaN]) by (vm_compute; reflexivity).
  split; [exact Hpd|]. split; [reflexivity|].
  exact (proj1 (proj2 (proj2 (reflectance_stats_nan_exclusion (fun x => x) (Fin 0) rows rows
                                [NaN] Hpd))) eq_refl).
Defined.

(** ** Build avoidance *)

Lemma build_LUT_writes (sixs_run : SixSParams -> SixSOutputs) (aerosol_known : string -> bool)
  (Interp : Type) (config : Config) (w w' : World Interp) :
  build_LUT sixs_run aerosol_known Interp config w = Ok w' ->
  isfile Interp w' (filepath config) = true.
Proof.
  intros Hb. pose proof (build_LUT_ok _ _ _ _ _ _ Hb) as H.
  unfold load_lut, isfile in *. destruct (files Interp w' (filepath config)); [reflexivity|].
  discriminate.
Qed.

Lemma main_existing_noop (sixs_run : SixSParams -> SixSOutputs)
  (channel_known aerosol_known : string -> bool) (py_float : string -> option Qc)
  (Interp : Type) (base : string) (args : Args) (w : World Interp) (config : Config) :
  main_config channel_known aerosol_known py_float base args = inr config ->
  isfile Interp w (filepath config) = true ->
  main sixs_run channel_known aerosol_known py_float Interp base args w = (Finished, w).
Proof. intros Hc Hf. unfold main. rewrite Hc, Hf. reflexivity. Qed.

Lemma main_twice (sixs_run : SixSParams -> SixSOutputs)
  (channel_known aerosol_known : string -> bool) (py_float : string -> option Qc)
  (Interp : Type) (base : string) (args : Args) (w w1 : World Interp) :
  main sixs_run channel_known aerosol_known py_float Interp base args w = (Finished, w1) ->
  main sixs_run channel_known aerosol_known py_float Interp base args w1 = (Finished, w1).
Proof.
  unfold main at 1. destruct (main_config channel_known aerosol_known py_float base args)
    as [[c|e]|config] eqn:Hc; try discriminate.
  destruct (isfile Interp w (filepath config)) eqn:Hf.
  - intros H. injection H as <-. apply (main_existing_noop _ _ _ _ _ _ _ _ config Hc Hf).
  - destruct (build_LUT sixs_run aerosol_known Interp config w) as [w'|e] eqn:Hb;
      [|discriminate].
    intros H. injection H as <-.
    apply (main_existing_noop _ _ _ _ _ _ _ _ config Hc).
    exact (build_LUT_writes _ _ _ _ _ _ Hb).
Qed.

Lemma lut_interpolate_loop_existing (Interp : Type)
  (LinearNDInterpolator : list (list Qc) -> list (list Qc) -> result Interp)
  (lut_path ilut_path : string) (fnames : list string) (w : World Interp) :
  (forall fname, In fname fnames ->
     isfile Interp w (path_join ilut_path (strip_ext ".lut" fname ++ ".ilut")) = true) ->
  lut_interpolate_loop Interp LinearNDInterpolator lut_path ilut_path fnames w = (Finished, w).
Proof.
  induction fnames as [|fname rest IH]; intros H; [reflexivity|].
  simpl. rewrite (H fname (or_introl eq_refl)).
  apply IH. intros f Hf. apply H. right. exact Hf.
Qed.

Lemma interpolate_LUTs_loop_existing (Interp : Type)
  (LinearNDInterpolator : list (list Qc) -> list (list Qc) -> result Interp)
  (iLUTs_dir : string) (filepaths : list string) (w : World Interp) :
  (forall fpath, In fpath filepaths ->
     isfile Interp w (path_join iLUTs_dir (strip_ext ".lut" (basename fpath) ++ ".ilut")) = true) ->
  interpolate_LUTs_loop Interp LinearNDInterpolator iLUTs_dir filepaths w = w.
Proof.
  induction filepaths as [|fpath rest IH]; intros H; [reflexivity|].
  simpl. rewrite (H fpath (or_introl eq_refl)).
  apply IH. intros f Hf. apply H. right. exact Hf.
Qed.

(** C8: a second [LUT_build.main] for the same arguments after a
    successful first one changes nothing (no [build_LUT], no 6S run: the
    world, counters included, is unchanged); whenever the LUT file of the
    configuration exists, [main] is such a no-op; and both interpolation
    loops skip every LUT whose [.ilut] file exists, so with all of them
    present they construct no interpolator and write nothing. *)
Theorem build_and_interpolation_skip_existing (sixs_run : SixSParams -> SixSOutputs)
  (channel_known aerosol_known : string -> bool) (py_float : string -> option Qc)
  (Interp : Type) (LinearNDInterpolator : list (list Qc) -> list (list Qc) -> result Interp)
  (base : string) (args : Args) (w : World Interp) :
  (forall w1,
     main sixs_run channel_known aerosol_known py_float Interp base args w = (Finished, w1) ->
     main sixs_run channel_known aerosol_known py_float Interp base args w1 = (Finished, w1)) /\
  (forall config,
     main_config channel_known aerosol_known py_float base args = inr config ->
     isfile Interp w (filepath config) = true ->
     main sixs_run channel_known aerosol_known py_float Interp base args w = (Finished, w)) /\
  (forall lut_path ilut_path fnames,
     (forall fname, In fname fnames ->
        isfile Interp w (path_join ilut_path (strip_ext ".lut" fname ++ ".ilut")) = true) ->
     lut_interpolate_loop Interp LinearNDInterpolator lut_path ilut_path fnames w
     = (Finished, w)) /\
  (forall iLUTs_dir filepaths,
     (forall fpath, In fpath filepaths ->
        isfile Interp w (path_join iLUTs_dir (strip_ext ".lut" (basename fpath) ++ ".ilut"))
        = true) ->
     interpolate_LUTs_loop Interp LinearNDInterpolator iLUTs_dir filepaths w = w).
Proof.
  split; [intros w1; apply main_twice|].
  split; [intros config; apply main_existing_noop|].
  split; [intros; apply lut_interpolate_loop_existing; assumption|].
  intros; apply interpolate_LUTs_loop_existing; assumption.
Qed.

Lemma build_and_interpolation_skip_existing_witness :
  let r := main demo_run demo_channel_known demo_aerosol_known demo_py_float unit
             demo_base (demo_args (Some "test"%string)) demo_world in
  r = (Finished, snd r) /\
  main demo_run demo_channel_known demo_aerosol_known demo_py_float unit
    demo_base (demo_args (Some "test"%string)) (snd r) = (Finished, snd r).
Proof.
  intros r.
  assert (H : r = (Finished, snd r)) by (vm_compute; reflexivity).
  split; [exact H|].
  exact (proj1 (build_and_interpolation_skip_existing demo_run demo_channel_known
                  demo_aerosol_known demo_py_float unit demo_LinearND demo_base
                  (demo_args (Some "test"%string)) demo_world) (snd r) H).
Defined.

(** ** Build-type gate *)

(** C9 (counterexample): [--build_type ''] is a tag outside the recognised
    set, yet [main] does not fail: the empty string is falsy, so it falls
    back to the ['test'] grid and writes the LUT file. *)
Lemma empty_build_type_falls_back_to_test :
  main_config demo_channel_known demo_aerosol_known demo_py_float demo_base
    (demo_args (Some EmptyString)) = inr demo_config /\
  ~ In EmptyString recognized_build_types /\
  build_type demo_config = "test"%string /\
  fst (main demo_run demo_channel_known demo_aerosol_known demo_py_float unit
         demo_base (demo_args (Some EmptyString)) demo_world) = Finished /\
  isfile unit (snd (main demo_run demo_channel_known demo_aerosol_known demo_py_float unit
         demo_base (demo_args (Some EmptyString)) demo_world)) (filepath demo_config) = true.
Proof.
  split; [vm_compute; reflexivity|].
  split; [simpl; intros [H|[H|[H|[H|[]]]]]; discriminate H|].
  split; [reflexivity|].
  split; vm_compute; reflexivity.
Qed.

(** C9 (amended): a non-empty [--build_type] outside
    {'test', 'test2', 'full', 'validation'} stops [main] without touching
    the store: [main_config] stops exactly where it stops for the same
    command line with ['test'] when an earlier check (wavelength, channel,
    aerosol) fails, and otherwise with [sys.exit(1)]; [main] then returns
    that non-[Finished] outcome with the world unchanged. An absent or
    empty [--build_type] is the same as ['test']. *)
Theorem unrecognized_build_type_exits (sixs_run : SixSParams -> SixSOutputs)
  (channel_known aerosol_known : string -> bool) (py_float : string -> option Qc)
  (Interp : Type) (base : string) (args : Args) (w : World Interp) :
  (forall b, arg_build_type args = Some b -> b <> EmptyString ->
     ~ In b recognized_build_types ->
     main_config channel_known aerosol_known py_float base args
     = match main_config channel_known aerosol_known py_float base
               (with_build_type args (Some "test"%string)) with
       | inl s => inl s
       | inr _ => inl (SExit 1)
       end /\
     exists o, main sixs_run channel_known aerosol_known py_float Interp base args w = (o, w)
               /\ o <> Finished) /\
  ((arg_build_type args = None \/ arg_build_type args = Some EmptyString) ->
     main_config channel_known aerosol_known py_float base args
     = main_config channel_known aerosol_known py_float base
         (with_build_type args (Some "test"%string))).
Proof.
  split.
  - intros b Hb Hne Hni.
    assert (Hc : main_config channel_known aerosol_known py_float base args
     = match main_config channel_known aerosol_known py_float base
               (with_build_type args (Some "test"%string)) with
       | inl s => inl s
       | inr _ => inl (SExit 1)
       end).
    { unfold main_config, with_build_type. cbn [arg_channel arg_wavelength arg_filter
        arg_aerosol arg_build_type].
      rewrite Hb.
      assert (Ht : truthy_str (Some b) = Some b).
      { unfold truthy_str. destruct (String.eqb_spec b EmptyString); [contradiction|reflexivity]. }
      assert (Hx : existsb (String.eqb b) recognized_build_types = false).
      { destruct (existsb (String.eqb b) recognized_build_types) eqn:E; [|reflexivity].
        exfalso. apply existsb_exists in E. destruct E as [x [Hx Heq]].
        apply String.eqb_eq in Heq. subst x. contradiction. }
      rewrite Ht, Hx.
      destruct (wavelength_spectrum py_float (arg_wavelength args) (arg_filter args)) as [s|spec0];
        [reflexivity|].
      destruct (match truthy_str (arg_channel args) with
                | Some ch => if channel_known ch then inr (Some (WlChannel ch)) else inl (SExit 1)
                | None => inr spec0 end) as [s|[spectrum|]]; try reflexivity.
      destruct (match truthy_str (arg_aerosol args) with
                | Some a => if aerosol_known a then inr a else inl (SExit 1)
                | None => inr "Continental"%string end) as [s|aero]; [reflexivity|].
      simpl. destruct (IO_handler base aero 0 args) as [[od fn] fp]. reflexivity. }
    split; [exact Hc|].
    unfold main. rewrite Hc.
    destruct (main_config channel_known aerosol_known py_float base
                (with_build_type args (Some "test"%string))) as [[c|e]|cfg].
    + exists (Exited c). split; [reflexivity|discriminate].
    + exists (Raised e). split; [reflexivity|discriminate].
    + exists (Exited 1). split; [reflexivity|discriminate].
  - intros Hb. unfold main_config, with_build_type. cbn [arg_channel arg_wavelength arg_filter
      arg_aerosol arg_build_type].
    assert (Ht : truthy_str (arg_build_type args) = None).
    { destruct Hb as [Hb|Hb]; rewrite Hb; reflexivity. }
    rewrite Ht. reflexivity.
Qed.

Lemma unrecognized_build_type_exits_witness :
  main demo_run demo_channel_known demo_aerosol_known demo_py_float unit
    demo_base (demo_args (Some "tests"%string)) demo_world = (Exited 1, demo_world) /\
  main_config demo_channel_known demo_aerosol_known demo_py_float demo_base
    (demo_args (Some EmptyString)) =
  main_config demo_channel_known demo_aerosol_known demo_py_float demo_base
    (with_build_type (demo_args (Some EmptyString)) (Some "test"%string)).
Proof.
  destruct (unrecognized_build_type_exits demo_run demo_channel_known demo_aerosol_known
              demo_py_float unit demo_base (demo_args (Some "tests"%string)) demo_world)
    as [H1 _].
  destruct (unrecognized_build_type_exits demo_run demo_channel_known demo_aerosol_known
              demo_py_float unit demo_base (demo_args (Some EmptyString)) demo_world)
    as [_ H2].
  split.
  - destruct (H1 "tests"%string eq_refl ltac:(discriminate)
                ltac:(simpl; intros [H|[H|[H|[H|[]]]]]; discriminate H)) as [Hc _].
    unfold main. rewrite Hc. vm_compute. reflexivity.
  - apply H2. right. reflexivity.
Defined.

(** * Further properties of the code *)

(** ** Permutations of the parameter grid *)

Lemma in_cart {A : Type} (pools : list (list A)) (x : list A) :
  In x (cart pools) <-> Forall2 (fun y p => In y p) x pools.
Proof.
  revert x. induction pools as [|p ps IH]; intros x; simpl.
  - split; [intros [<-|[]]; constructor | intros H; inversion H; left; reflexivity].
  - rewrite in_flat_map. split.
    + intros [y [Hy Hx]]. apply in_map_iff in Hx. destruct Hx as [t [<- Ht]].
      constructor; [exact Hy | apply IH; exact Ht].
    + intros H. inversion H as [|y t p' ps' Hy Ht]; subst.
      exists y. split; [exact Hy|]. apply in_map. apply IH. exact Ht.
Qed.

(** [permutate_invars] yields exactly the 5-tuples
    [(solar_z, H2O, O3, AOT, alt)] whose components are taken from the
    grid's five dimensions, the component at index [k] from dimension [k]. *)
Theorem permutate_invars_members (g : Grid) (perm : Perm) :
  In perm (permutate_invars g) <->
  exists s h o a z, perm = [s; h; o; a; z] /\ In s (solar_zs g) /\ In h (H2Os g) /\
                    In o (O3s g) /\ In a (AOTs g) /\ In z (alts g).
Proof.
  unfold permutate_invars, Perm in *. rewrite itertools_product_cart, in_cart. split.
  - intros H. inversion H as [|s r1 ? ? Hs H1]; subst.
    inversion H1 as [|h r2 ? ? Hh H2]; subst.
    inversion H2 as [|o r3 ? ? Ho H3]; subst.
    inversion H3 as [|a r4 ? ? Ha H4]; subst.
    inversion H4 as [|z r5 ? ? Hz H5]; subst.
    inversion H5; subst.
    exists s, h, o, a, z. repeat split; assumption.
  - intros (s & h & o & a & z & -> & Hs & Hh & Ho & Ha & Hz). repeat constructor; assumption.
Qed.

Lemma NoDup_flat_map_cons {A : Type} (p : list A) (c : list (list A)) :
  NoDup p -> NoDup c -> NoDup (flat_map (fun y => map (cons y) c) p).
Proof.
  intros Hp Hc. induction Hp as [|y p' Hy Hp' IHp]; simpl; [constructor|].
  apply NoDup_app; [| exact IHp |].
  - apply NoDup_map_NoDup_ForallPairs; [|exact Hc].
    intros u v _ _ E. injection E as E. exact E.
  - intros x Hx1 Hx2. apply in_map_iff in Hx1. destruct Hx1 as [t [<- _]].
    apply in_flat_map in Hx2. destruct Hx2 as [y' [Hy' Ht]]. apply in_map_iff in Ht.
    destruct Ht as [t' [E _]]. injection E as E1 _. subst y'. contradiction.
Qed.

Lemma NoDup_cart {A : Type} (pools : list (list A)) :
  Forall (@NoDup A) pools -> NoDup (cart pools).
Proof.
  induction pools as [|p ps IH]; intros H; simpl.
  - constructor; [intros [] | constructor].
  - inversion H as [|? ? Hp Hps]; subst.
    apply NoDup_flat_map_cons; [exact Hp | apply IH; exact Hps].
Qed.

(** When no dimension of the grid repeats a value, no permutation occurs
    twice, so [build_LUT] never runs 6S twice on the same inputs. *)
Theorem permutate_invars_NoDup (g : Grid)
  (Hs : NoDup (solar_zs g)) (Hh : NoDup (H2Os g)) (Ho : NoDup (O3s g))
  (Ha : NoDup (AOTs g)) (Hz : NoDup (alts g)) :
  NoDup (permutate_invars g).
Proof.
  unfold permutate_invars. rewrite itertools_product_cart.
  apply NoDup_cart. repeat constructor; assumption.
Qed.

Ltac qc_distinct :=
  let E := fresh in
  intros E; apply (f_equal (fun q : Qc => this q)) in E; vm_compute in E; discriminate E.

Ltac nodup_qc :=
  repeat constructor; simpl;
  let Hin := fresh in
  intros Hin; repeat destruct Hin as [Hin|Hin]; try exact Hin; revert Hin; qc_distinct.

Lemma permutate_invars_NoDup_witness : NoDup (permutate_invars test2_grid).
Proof.
  apply (permutate_invars_NoDup test2_grid); simpl; nodup_qc.
Defined.

(** ** What [build_LUT] does to the store *)

Lemma fold_count_sim (Interp : Type) {A : Type} (l : list A) (w : World Interp) :
  files Interp (fold_left (fun w _ => count_sim Interp w) l w) = files Interp w /\
  sim_runs Interp (fold_left (fun w _ => count_sim Interp w) l w)
  = (sim_runs Interp w + List.length l)%nat /\
  interp_builds Interp (fold_left (fun w _ => count_sim Interp w) l w) = interp_builds Interp w.
Proof.
  revert w. induction l as [|x l IH]; intros w; simpl.
  - repeat split. lia.
  - destruct (IH (count_sim Interp w)) as (H1 & H2 & H3). simpl in *.
    rewrite H1, H2, H3. repeat split. lia.
Qed.

Lemma length_permutate_invars (g : Grid) :
  List.length (permutate_invars g) = grid_size g.
Proof.
  unfold permutate_invars, Perm. rewrite itertools_product_cart, length_cart.
  unfold grid_size. simpl. lia.
Qed.

(** A successful [build_LUT] writes the one path [config['filepath']],
    leaves every other file as it was, runs 6S once per point of the grid
    (the product of the five dimension lengths) and builds no interpolator. *)
Theorem build_LUT_store_effect (sixs_run : SixSParams -> SixSOutputs)
  (aerosol_known : string -> bool) (Interp : Type) (config : Config) (w w' : World Interp)
  (Hb : build_LUT sixs_run aerosol_known Interp config w = Ok w') :
  (forall p, p <> filepath config -> files Interp w' p = files Interp w p) /\
  sim_runs Interp w' = (sim_runs Interp w + grid_size (invars config))%nat /\
  interp_builds Interp w' = interp_builds Interp w.
Proof.
  unfold build_LUT in Hb. destruct (aerosol_known (aerosol_profile config)); [|discriminate].
  injection Hb as <-.
  destruct (fold_count_sim Interp (permutate_invars (invars config)) w) as (H1 & H2 & H3).
  cbn [files sim_runs interp_builds dump]. split; [|split].
  - intros p Hp. apply String.eqb_neq in Hp. rewrite Hp, H1. reflexivity.
  - rewrite H2, length_permutate_invars. reflexivity.
  - exact H3.
Qed.

Lemma build_LUT_store_effect_witness :
  exists w',
    build_LUT demo_run demo_aerosol_known unit (demo_config) demo_world = Ok w' /\
    sim_runs unit w' = 1%nat /\ interp_builds unit w' = 0%nat /\
    files unit w' "/opt/6S_emulator/files/LUTs/other.lut"%string = None.
Proof.
  pose (w' := match build_LUT demo_run demo_aerosol_known unit demo_config demo_world with
              | Ok w => w | Err _ => demo_world end).
  assert (Hb : build_LUT demo_run demo_aerosol_known unit demo_config demo_world = Ok w')
    by (vm_compute; reflexivity).
  destruct (build_LUT_store_effect demo_run demo_aerosol_known unit demo_config
              demo_world w' Hb) as (H1 & H2 & H3).
  exists w'. split; [exact Hb|]. split; [rewrite H2; reflexivity|].
  split; [rewrite H3; reflexivity|].
  rewrite (H1 "/opt/6S_emulator/files/LUTs/other.lut"%string ltac:(vm_compute; discriminate)). reflexivity.
Defined.

(** Neither reader that looks up [LUT['inputs']['permutations']] can read
    a LUT written by [build_LUT]: [LUT_interpolate.create_interpolator]
    and the Deterministic [get_stats] (once both of its files load) raise
    [KeyError], whatever the configuration. *)
Theorem inputs_readers_reject_built_LUT (sixs_run : SixSParams -> SixSOutputs)
  (aerosol_known : string -> bool) (Interp : Type)
  (LinearNDInterpolator : list (list Qc) -> list (list Qc) -> result Interp)
  (sqrt_q : Qc -> Qc) (iLUT_call : Interp -> list Qc -> list flt)
  (config : Config) (w w' : World Interp) (iLUT_path : string) (ref : flt)
  (Hb : build_LUT sixs_run aerosol_known Interp config w = Ok w')
  (Hi : isfile Interp w' iLUT_path = true) :
  create_interpolator Interp LinearNDInterpolator w' (filepath config) = Err KeyError /\
  get_stats sqrt_q Interp iLUT_call (filepath config) iLUT_path ref w' = Err KeyError.
Proof.
  pose proof (build_LUT_ok _ _ _ _ _ _ Hb) as HL.
  split.
  - unfold create_interpolator. rewrite HL. reflexivity.
  - unfold get_stats, pickle_load. unfold load_lut in HL.
    destruct (files Interp w' (filepath config)) as [[d|i]|]; try discriminate.
    injection HL as ->. unfold isfile in Hi.
    destruct (files Interp w' iLUT_path); [reflexivity | discriminate].
Qed.

Lemma inputs_readers_reject_built_LUT_witness :
  exists w',
    build_LUT demo_run demo_aerosol_known unit demo_config demo_world = Ok w' /\
    create_interpolator unit demo_LinearND w' (filepath demo_config) = Err KeyError /\
    get_stats (fun q => q) unit (fun _ _ => []) (filepath demo_config)
      (filepath demo_config) (Fin (qc 1 10)) w' = Err KeyError.
Proof.
  pose (w' := match build_LUT demo_run demo_aerosol_known unit demo_config demo_world with
              | Ok w => w | Err _ => demo_world end).
  assert (Hb : build_LUT demo_run demo_aerosol_known unit demo_config demo_world = Ok w')
    by (vm_compute; reflexivity).
  exists w'. split; [exact Hb|].
  exact (inputs_readers_reject_built_LUT demo_run demo_aerosol_known unit demo_LinearND
           (fun q => q) (fun _ _ => []) demo_config demo_world w' (filepath demo_config)
           (Fin (qc 1 10)) Hb ltac:(vm_compute; reflexivity)).
Defined.

(** ** Build types *)

(** [input_variables] is defined for exactly the build types that [main]
    accepts, so the [KeyError] of [build_selector[build_type]] cannot be
    reached from [main]. *)
Theorem input_variables_keys (b : string) :
  (exists g, input_variables b = Some g) <-> In b recognized_build_types.
Proof.
  unfold input_variables, recognized_build_types.
  destruct (String.eqb b "test") eqn:E1;
    [apply String.eqb_eq in E1; subst; split; [simpl; tauto | eexists; reflexivity]|].
  destruct (String.eqb b "test2") eqn:E2;
    [apply String.eqb_eq in E2; subst; split; [simpl; tauto | eexists; reflexivity]|].
  destruct (String.eqb b "validation") eqn:E3;
    [apply String.eqb_eq in E3; subst; split; [simpl; tauto | eexists; reflexivity]|].
  destruct (String.eqb b "full") eqn:E4;
    [apply String.eqb_eq in E4; subst; split; [simpl; tauto | eexists; reflexivity]|].
  split; [intros [g Hg]; discriminate|].
  simpl. intros [H|[H|[H|[H|[]]]]]; subst; simpl in *; discriminate.
Qed.

Lemma input_variables_of_existsb (b : string) :
  existsb (String.eqb b) recognized_build_types = true -> input_variables b <> None.
Proof.
  intros H. apply existsb_exists in H. destruct H as [x [Hx E]].
  apply String.eqb_eq in E. subst x.
  simpl in Hx. destruct Hx as [<-|[<-|[<-|[<-|[]]]]]; vm_compute; discriminate.
Qed.

(** ** Exits of [LUT_build.main] *)

Ltac destruct_matches :=
  repeat (match goal with
          | |- context [match ?x with _ => _ end] =>
              lazymatch x with
              | context [match _ with _ => _ end] => fail
              | _ => destruct x eqn:?
              end
          end; cbn beta iota zeta).

(** [main] exits with code 1 and writes nothing when more than two
    wavelengths are given, even if a valid channel is given too, since the
    wavelength check runs first. It does the same when neither wavelengths
    nor a channel are given. *)
Theorem main_exits_without_spectrum (sixs_run : SixSParams -> SixSOutputs)
  (channel_known aerosol_known : string -> bool) (py_float : string -> option Qc)
  (Interp : Type) (base : string) (args : Args) (w : World Interp) :
  (forall wl, arg_wavelength args = Some wl -> (2 < List.length wl)%nat ->
     main sixs_run channel_known aerosol_known py_float Interp base args w = (Exited 1, w)) /\
  (truthy_list (arg_wavelength args) = None -> truthy_str (arg_channel args) = None ->
     main sixs_run channel_known aerosol_known py_float Interp base args w = (Exited 1, w)).
Proof.
  split.
  - intros wl Hw Hl. unfold main, main_config, wavelength_spectrum. rewrite Hw.
    destruct wl as [|x wl]; [simpl in Hl; lia|].
    apply Nat.ltb_lt in Hl. cbn [truthy_list]. rewrite Hl. reflexivity.
  - intros Hw Hc. unfold main, main_config, wavelength_spectrum. rewrite Hw, Hc. reflexivity.
Qed.

Lemma main_exits_without_spectrum_witness :
  main demo_run demo_channel_known demo_aerosol_known demo_py_float unit demo_base
    (demo_args_wl ["0.4"; "0.5"; "0.6"]%string) demo_world = (Exited 1, demo_world) /\
  main demo_run demo_channel_known demo_aerosol_known demo_py_float unit demo_base
    (mkArgs None None None None None) demo_world = (Exited 1, demo_world).
Proof.
  split.
  - apply (proj1 (main_exits_without_spectrum demo_run demo_channel_known demo_aerosol_known
                    demo_py_float unit demo_base (demo_args_wl ["0.4"; "0.5"; "0.6"]%string)
                    demo_world) ["0.4"; "0.5"; "0.6"]%string eq_refl).
    simpl. lia.
  - apply (proj2 (main_exits_without_spectrum demo_run demo_channel_known demo_aerosol_known
                    demo_py_float unit demo_base (mkArgs None None None None None)
                    demo_world)); reflexivity.
Defined.

(** ** Output paths of [IO_handler] *)

Lemma string_app_assoc (a b c : string) : ((a ++ b) ++ c = a ++ (b ++ c))%string.
Proof. induction a as [|x a IH]; simpl; congruence. Qed.

Lemma py_split_nonempty (c : ascii) (s : string) : exists p ps, py_split c s = p :: ps.
Proof.
  destruct s as [|x r]; simpl; [eauto|].
  destruct (Ascii.eqb x c); [eauto|]. destruct (py_split c r) as [|p ps]; eauto.
Qed.

Lemma py_split_app (c : ascii) (a b : string) :
  py_split c (a ++ String c b) = py_split c a ++ py_split c b.
Proof.
  induction a as [|x r IH]; simpl.
  - rewrite Ascii.eqb_refl. reflexivity.
  - rewrite IH. destruct (Ascii.eqb x c); [reflexivity|].
    destruct (py_split_nonempty c r) as [p [ps E]]. rewrite E. reflexivity.
Qed.

Lemma py_split_no_sep (c : ascii) (s : string) :
  ~ In c (list_ascii_of_string s) -> py_split c s = [s].
Proof.
  induction s as [|x r IH]; simpl; intros H; [reflexivity|].
  destruct (Ascii.eqb_spec x c); [exfalso; apply H; left; assumption|].
  rewrite IH; [reflexivity | intros Hin; apply H; right; exact Hin].
Qed.

Lemma concat_cons_string (sep : string) (x : ascii) (p : string) (ps : list string) :
  String.concat sep (String x p :: ps) = String x (String.concat sep (p :: ps)).
Proof. destruct ps; reflexivity. Qed.

Lemma py_join_split (c : ascii) (s : string) :
  py_join (String c EmptyString) (py_split c s) = s.
Proof.
  unfold py_join. induction s as [|x r IH]; [reflexivity|].
  destruct (py_split_nonempty c r) as [p [ps E]].
  cbn [py_split]. rewrite E in *.
  destruct (Ascii.eqb_spec x c) as [->|Hne].
  - change (String c (String.concat (String c EmptyString) (p :: ps)) = String c r).
    rewrite IH. reflexivity.
  - cbn beta iota. rewrite concat_cons_string, IH. reflexivity.
Qed.

Lemma channel_sensor_name (sensor band : string) :
  ~ In "_"%char (list_ascii_of_string band) ->
  py_join "_" (removelast (py_split "_"%char (sensor ++ "_" ++ band))) = sensor.
Proof.
  intros H.
  change (sensor ++ "_" ++ band)%string with (sensor ++ String "_"%char band)%string.
  rewrite py_split_app, (py_split_no_sep _ _ H), removelast_last.
  apply py_join_split.
Qed.

Lemma truthy_channel (sensor band : string) :
  truthy_str (Some (sensor ++ "_" ++ band)%string) = Some (sensor ++ "_" ++ band)%string.
Proof. unfold truthy_str. destruct sensor; reflexivity. Qed.

(** For a channel [SENSOR_BAND] whose band part has no underscore,
    [IO_handler] files the LUT as
    [<base>/files/LUTs/SENSOR/<aerosol>/view_zenith_<vz>/SENSOR_BAND.lut]:
    the sensor directory is the channel name without its last
    [_]-separated part (e.g. [S2A_MSI] for [S2A_MSI_01]). *)
Theorem IO_handler_channel_layout (base aero : string) (vz : Z) (args : Args)
  (sensor band : string)
  (Hch : arg_channel args = Some (sensor ++ "_" ++ band)%string)
  (Hband : ~ In "_"%char (list_ascii_of_string band)) :
  let ch := (sensor ++ "_" ++ band)%string in
  let od := path_join (path_join (path_join (path_join (path_join base "files") "LUTs")
                         sensor) aero) ("view_zenith_" ++ string_of_Z vz) in
  IO_handler base aero vz args = (od, (ch ++ ".lut")%string, path_join od (ch ++ ".lut")).
Proof.
  intros ch od. unfold IO_handler. rewrite Hch, truthy_channel.
  cbv beta iota zeta. rewrite (channel_sensor_name sensor band Hband). reflexivity.
Qed.

Lemma IO_handler_channel_layout_witness :
  IO_handler demo_base "Continental" 0 (demo_args None)
  = ("/opt/6S_emulator/files/LUTs/S2A_MSI/Continental/view_zenith_0"%string,
     "S2A_MSI_01.lut"%string,
     "/opt/6S_emulator/files/LUTs/S2A_MSI/Continental/view_zenith_0/S2A_MSI_01.lut"%string).
Proof.
  rewrite (IO_handler_channel_layout demo_base "Continental" 0 (demo_args None)
             "S2A_MSI" "01" eq_refl ltac:(simpl; intros [H|[H|[]]]; discriminate H)).
  vm_compute. reflexivity.
Defined.

(** The directory [LUT_build] writes the LUT of a channel
    [SENSOR_BAND] to, with the default aerosol profile, is the
    [LUTs_dir] that [Interpolated_LUTs(mission)] reads from, for a mission
    whose Py6S sensor is [SENSOR] (both computed from the same base
    directory, the parent of [LUT_build.py] and of [bin/]). *)
Theorem build_and_ILUTs_dirs_agree (base mission band : string) (il : ILUTs) (args : Args)
  (Hi : Interpolated_LUTs_init base mission = Ok il)
  (Hch : arg_channel args = Some (py6S_sensor il ++ "_" ++ band)%string)
  (Hband : ~ In "_"%char (list_ascii_of_string band)) :
  fst (fst (IO_handler base "Continental" 0 args)) = LUTs_dir il.
Proof.
  unfold Interpolated_LUTs_init in Hi.
  destruct (getitem py6S_sensor_names mission) as [sensor|e]; [|discriminate].
  injection Hi as <-. cbn [py6S_sensor LUTs_dir] in *.
  unfold IO_handler. rewrite Hch, truthy_channel. cbv beta iota zeta.
  rewrite (channel_sensor_name sensor band Hband). reflexivity.
Qed.

Lemma build_and_ILUTs_dirs_agree_witness :
  exists il, Interpolated_LUTs_init demo_base "COPERNICUS/S2" = Ok il /\
    fst (fst (IO_handler demo_base "Continental" 0 (demo_args None))) = LUTs_dir il.
Proof.
  pose (il := match Interpolated_LUTs_init demo_base "COPERNICUS/S2" with
              | Ok i => i | Err _ => mkILUTs "" "" "" "" "" end).
  assert (Hi : Interpolated_LUTs_init demo_base "COPERNICUS/S2" = Ok il)
    by (vm_compute; reflexivity).
  exists il. split; [exact Hi|].
  exact (build_and_ILUTs_dirs_agree demo_base "COPERNICUS/S2" "01" il (demo_args None) Hi
           ltac:(vm_compute; reflexivity) ltac:(simpl; intros [H|[H|[]]]; discriminate H)).
Defined.

Lemma IO_handler_channel_file (base aero : string) (vz : Z) (args : Args) (ch : string) :
  truthy_str (arg_channel args) = Some ch ->
  exists od, IO_handler base aero vz args = (od, (ch ++ ".lut")%string, path_join od (ch ++ ".lut")).
Proof. intros H. unfold IO_handler. rewrite H. eexists. reflexivity. Qed.

(** A given channel takes precedence over any wavelength arguments: when
    [main] gets a configuration, its spectrum is the channel's and its
    file is [<outdir>/<channel>.lut]. *)
Theorem main_config_channel_precedence (channel_known aerosol_known : string -> bool)
  (py_float : string -> option Qc) (base : string) (args : Args) (config : Config)
  (ch : string)
  (Hch : truthy_str (arg_channel args) = Some ch)
  (Hm : main_config channel_known aerosol_known py_float base args = inr config) :
  spectrum config = WlChannel ch /\ filename config = (ch ++ ".lut")%string /\
  filepath config = path_join (outdir config) (ch ++ ".lut").
Proof.
  revert Hm. unfold main_config. rewrite Hch. destruct_matches; intros H; try discriminate H;
  injection H as <-; cbn [spectrum filename filepath outdir];
  match goal with E : IO_handler _ ?aero _ _ = _ |- _ =>
    destruct (IO_handler_channel_file base aero 0 args ch Hch) as [od E'];
    rewrite E' in E; injection E as <- <- <- end;
  auto.
Qed.

Lemma main_config_channel_precedence_witness :
  spectrum demo_config = WlChannel "S2A_MSI_01" /\
  filename demo_config = ("S2A_MSI_01" ++ ".lut")%string /\
  filepath demo_config = path_join (outdir demo_config) ("S2A_MSI_01" ++ ".lut").
Proof.
  apply (main_config_channel_precedence demo_channel_known demo_aerosol_known
           (fun _ => Some (qc 42 100)) demo_base
           (mkArgs (Some "S2A_MSI_01"%string) (Some ["0.42"]%string) None None
                   (Some "test"%string)));
    vm_compute; reflexivity.
Defined.

Lemma IO_handler_single_filtered (base aero : string) (vz : Z) (args : Args) (s : string)
  (filt : list string) :
  arg_wavelength args = Some [s] -> truthy_list (arg_filter args) = Some filt ->
  truthy_str (arg_channel args) = None ->
  exists od, IO_handler base aero vz args
             = (od, ("wavelength_" ++ s ++ "_f.lut")%string,
                path_join od ("wavelength_" ++ s ++ "_f.lut")).
Proof.
  intros Hw Hf Hc. unfold IO_handler. rewrite Hw, Hf, Hc. cbn [truthy_list].
  eexists. cbv beta iota zeta. unfold py_join. cbn [String.concat].
  rewrite !string_app_assoc. reflexivity.
Qed.

(** With a single wavelength, a spectral filter is silently ignored: the
    spectrum is the single wavelength, but the LUT's file name still
    carries the filter suffix, [wavelength_<w>_f.lut]. *)
Theorem single_wavelength_drops_filter (channel_known aerosol_known : string -> bool)
  (py_float : string -> option Qc) (base : string) (args : Args) (config : Config)
  (s : string) (a : Qc) (filt : list string)
  (Hw : arg_wavelength args = Some [s]) (Hf : py_float s = Some a)
  (Hfl : truthy_list (arg_filter args) = Some filt)
  (Hc : truthy_str (arg_channel args) = None)
  (Hm : main_config channel_known aerosol_known py_float base args = inr config) :
  spectrum config = WlSingle a /\ filename config = ("wavelength_" ++ s ++ "_f.lut")%string.
Proof.
  revert Hm. unfold main_config, wavelength_spectrum. rewrite Hw, Hc.
  cbn [truthy_list nth List.length Nat.ltb Nat.leb Nat.eqb]. rewrite Hf.
  destruct_matches; intros H; try discriminate H;
  injection H as <-; cbn [spectrum filename];
  match goal with E : IO_handler _ ?aero _ _ = _ |- _ =>
    destruct (IO_handler_single_filtered base aero 0 args s filt Hw Hfl Hc) as [od E'];
    rewrite E' in E; injection E as <- <- <- end;
  auto.
Qed.

Lemma single_wavelength_drops_filter_witness :
  let args := mkArgs None (Some ["0.42"]%string) (Some ["0.1"; "0.8"]%string) None None in
  exists config,
    main_config demo_channel_known demo_aerosol_known (fun _ => Some (qc 42 100))
      demo_base args = inr config /\
    spectrum config = WlSingle (qc 42 100) /\
    filename config = ("wavelength_" ++ "0.42" ++ "_f.lut")%string.
Proof.
  intros args.
  pose (config := match main_config demo_channel_known demo_aerosol_known
                          (fun _ => Some (qc 42 100)) demo_base args with
                  | inr c => c | inl _ => demo_config end).
  assert (Hm : main_config demo_channel_known demo_aerosol_known (fun _ => Some (qc 42 100))
                 demo_base args = inr config) by (vm_compute; reflexivity).
  exists config. split; [exact Hm|].
  exact (single_wavelength_drops_filter demo_channel_known demo_aerosol_known
           (fun _ => Some (qc 42 100)) demo_base args config "0.42" (qc 42 100)
           ["0.1"; "0.8"]%string eq_refl eq_refl eq_refl eq_refl Hm).
Defined.

(** ** What the interpolation loops write *)

Lemma files_dump (Interp : Type) (p q : string) (f : File Interp) (w : World Interp) :
  files Interp (dump Interp p f (count_interp Interp w)) q
  = if String.eqb q p then Some f else files Interp w q.
Proof. reflexivity. Qed.

Lemma isfile_false (Interp : Type) (w : World Interp) (p : string) :
  isfile Interp w p = false -> files Interp w p = None.
Proof. unfold isfile. destruct (files Interp w p); [discriminate|reflexivity]. Qed.

(** Both interpolation drivers only add files: a path whose content
    differs after the loop held nothing before, now holds an interpolator,
    and is the [.ilut] path of one of the listed LUT files. An existing
    file is never overwritten and no [.lut] file is touched. *)
Theorem interpolation_loops_only_add_ilut (Interp : Type)
  (LinearND : list (list Qc) -> list (list Qc) -> result Interp) :
  (forall (dir : string) (fpaths : list string) (w : World Interp) (p : string),
     let w' := interpolate_LUTs_loop Interp LinearND dir fpaths w in
     files Interp w' p = files Interp w p \/
     (files Interp w p = None /\ (exists i, files Interp w' p = Some (FIlut Interp i)) /\
      exists fpath, In fpath fpaths /\
        p = path_join dir (strip_ext ".lut" (basename fpath) ++ ".ilut"))) /\
  (forall (lut_path ilut_path : string) (fnames : list string) (w : World Interp) (p : string),
     let w' := snd (lut_interpolate_loop Interp LinearND lut_path ilut_path fnames w) in
     files Interp w' p = files Interp w p \/
     (files Interp w p = None /\ (exists i, files Interp w' p = Some (FIlut Interp i)) /\
      exists fname, In fname fnames /\
        p = path_join ilut_path (strip_ext ".lut" fname ++ ".ilut"))).
Proof.
  split.
  - intros dir fpaths. induction fpaths as [|fp rest IH]; intros w p w'; subst w'.
    + left. reflexivity.
    + cbn [interpolate_LUTs_loop]. cbv zeta.
      destruct (isfile Interp w _) eqn:Hf.
      * destruct (IH w p) as [E|[E1 [E2 [fp' [Hin Hp]]]]]; [left; exact E|].
        right. split; [exact E1|]. split; [exact E2|]. exists fp'. split; [right; exact Hin|exact Hp].
      * destruct (bind _ _) as [i|e].
        -- set (q := path_join dir (strip_ext ".lut" (basename fp) ++ ".ilut")) in *.
           destruct (IH (dump Interp q (FIlut Interp i) (count_interp Interp w)) p)
             as [E|[E1 [E2 [fp' [Hin Hp]]]]];
             rewrite files_dump in *; destruct (String.eqb p q) eqn:Ep.
           ++ apply String.eqb_eq in Ep. subst p. right.
              split; [apply isfile_false; exact Hf|]. split; [exists i; exact E|].
              exists fp. split; [left; reflexivity|reflexivity].
           ++ left. exact E.
           ++ discriminate.
           ++ right. split; [exact E1|]. split; [exact E2|].
              exists fp'. split; [right; exact Hin|exact Hp].
        -- left. reflexivity.
  - intros lut_path ilut_path fnames. induction fnames as [|fn rest IH]; intros w p w'; subst w'.
    + left. reflexivity.
    + cbn [lut_interpolate_loop]. cbv zeta.
      destruct (isfile Interp w _) eqn:Hf.
      * destruct (IH w p) as [E|[E1 [E2 [fn' [Hin Hp]]]]]; [left; exact E|].
        right. split; [exact E1|]. split; [exact E2|]. exists fn'. split; [right; exact Hin|exact Hp].
      * destruct (create_interpolator Interp LinearND w _) as [i|e].
        -- set (q := path_join ilut_path (strip_ext ".lut" fn ++ ".ilut")) in *.
           destruct (IH (dump Interp q (FIlut Interp i) (count_interp Interp w)) p)
             as [E|[E1 [E2 [fn' [Hin Hp]]]]];
             rewrite files_dump in *; destruct (String.eqb p q) eqn:Ep.
           ++ apply String.eqb_eq in Ep. subst p. right.
              split; [apply isfile_false; exact Hf|]. split; [exists i; exact E|].
              exists fn. split; [left; reflexivity|reflexivity].
           ++ left. exact E.
           ++ discriminate.
           ++ right. split; [exact E1|]. split; [exact E2|].
              exists fn'. split; [right; exact Hin|exact Hp].
        -- left. reflexivity.
Qed.

(** ** [Interpolated_LUTs.get] *)

Lemma get_loop_trunc (Interp : Type) (il : ILUTs) (l1 l2 : list string) (f : string)
  (w : World Interp) (Hf : forall b, band_name il f = Ok b -> files Interp w f = None) :
  forall acc, get_loop Interp il (l1 ++ f :: l2) w acc = get_loop Interp il l1 w acc.
Proof.
  induction l1 as [|x l1 IH]; intros acc; simpl.
  - destruct (band_name il f) as [b|e] eqn:Eb; [|reflexivity].
    unfold pickle_load. rewrite (Hf b eq_refl). reflexivity.
  - destruct (band_name il x); [|reflexivity].
    destruct (pickle_load Interp w x); [apply IH|reflexivity].
Qed.

(** [get] stops at the first file whose band name cannot be derived
    (a Sentinel 2 file whose suffix is not a known band) or that cannot be
    opened: that file and all later ones are silently dropped, and the
    result is what the earlier files gave. *)
Theorem get_stops_at_unreadable (Interp : Type) (il : ILUTs) (l1 l2 : list string)
  (f : string) (w : World Interp)
  (Hf : forall b, band_name il f = Ok b -> files Interp w f = None) :
  get Interp il (l1 ++ f :: l2) w = get Interp il l1 w.
Proof. unfold get. apply get_loop_trunc. exact Hf. Qed.

Lemma dict_set_new {V : Type} (d : list (string * V)) (k : string) (v : V) :
  ~ In k (map fst d) -> dict_set d k v = d ++ [(k, v)].
Proof.
  induction d as [|[k' v'] d IH]; intros Hn; simpl; [reflexivity|].
  simpl in Hn. destruct (String.eqb k' k) eqn:E.
  - apply String.eqb_eq in E. subst k'. exfalso. apply Hn. left. reflexivity.
  - rewrite IH; [reflexivity|]. intros H. apply Hn. right. exact H.
Qed.




(** When every file gets a band name and can be loaded, and the band
    names are distinct, [get] returns one entry per file, in the order of
    [filepaths], each the band name paired with the loaded object. *)
Theorem get_loads_all (Interp : Type) (il : ILUTs) (fs : list string) (w : World Interp)
  (kvs : list (string * File Interp))
  (Hk : Forall2 (fun f kv => band_name il f = Ok (fst kv) /\ files Interp w f = Some (snd kv))
          fs kvs)
  (Hd : NoDup (map fst kvs)) :
  get Interp il fs w = kvs.
Proof.
  unfold get. rewrite <- (app_nil_l kvs).
  assert (Hn : forall k, In k (map fst kvs) -> ~ In k (map fst (@nil (string * File Interp))))
    by (intros k _ []).
  revert Hn Hd. generalize (@nil (string * File Interp)).
  induction Hk as [|f [k v] fs kvs' [Hb Hf] Hk IH]; intros acc Hn Hd; simpl.
  - rewrite app_nil_r. reflexivity.
  - simpl in Hb, Hf. rewrite Hb. unfold pickle_load. rewrite Hf.
    inversion Hd as [|? ? Hk' Hd']; subst.
    rewrite dict_set_new by (apply Hn; left; reflexivity).
    rewrite IH; [rewrite <- app_assoc; reflexivity| |exact Hd'].
    intros k' Hk'' Hin. rewrite map_app in Hin. apply in_app_or in Hin.
    destruct Hin as [Hin|[Heq|[]]].
    + exact (Hn k' (or_intror Hk'') Hin).
    + simpl in Heq. subst k'. contradiction.
Qed.

(** ** Shapes accepted by [create_interpolator] *)











Lemma get_stops_at_unreadable_witness :
  get unit demo_iluts [demo_ilut_path "01"; demo_ilut_path "14"; demo_ilut_path "02"]
    demo_ilut_world
  = get unit demo_iluts [demo_ilut_path "01"] demo_ilut_world.
Proof.
  assert (Hf : forall b, band_name demo_iluts (demo_ilut_path "14") = Ok b ->
                         files unit demo_ilut_world (demo_ilut_path "14") = None).
  { intros b Hb. vm_compute in Hb. discriminate. }
  exact (get_stops_at_unreadable unit demo_iluts [demo_ilut_path "01"] [demo_ilut_path "02"]
           (demo_ilut_path "14") demo_ilut_world Hf).
Defined.

Lemma get_loads_all_witness :
  get unit demo_iluts [demo_ilut_path "01"; demo_ilut_path "02"] demo_ilut_world
  = [("B1"%string, FIlut unit tt); ("B2"%string, FIlut unit tt)].
Proof.
  apply get_loads_all.
  - repeat (apply Forall2_cons; [split; vm_compute; reflexivity|]). apply Forall2_nil.
  - apply NoDup_cons; [simpl; intros [H|[]]; discriminate|].
    apply NoDup_cons; [intros []|apply NoDup_nil].
Defined.


(** ** Shape errors of [reflectance_stats] *)

Lemma np_binop_eq (f : flt -> flt -> flt) (x y : list flt) :
  List.length x = List.length y ->
  np_binop f x y = Ok (map (fun '(a, b) => f a b) (combine x y)).
Proof. intros H. unfold np_binop. rewrite H, Nat.eqb_refl. reflexivity. Qed.

Lemma np_binop_mismatch (f : flt -> flt -> flt) (x y : list flt) :
  List.length x <> List.length y -> (1 < List.length x)%nat -> (1 < List.length y)%nat ->
  np_binop f x y = Err ValueError.
Proof.
  intros H Hx Hy. unfold np_binop. apply Nat.eqb_neq in H. rewrite H.
  destruct x as [|a [|b x]]; simpl in Hx; try lia.
  destruct y as [|c [|d y]]; simpl in Hy; try lia. reflexivity.
Qed.

Lemma at_sensor_radiance_len (ref : flt) (a b c d : list flt) (n : nat) :
  List.length a = n -> List.length b = n -> List.length c = n -> List.length d = n ->
  exists r, at_sensor_radiance ref a b c d = Ok r /\ List.length r = n.
Proof.
  intros Ha Hb Hc Hd. unfold at_sensor_radiance.
  rewrite (np_binop_eq fadd a b) by lia. cbn [bind].
  rewrite np_binop_eq by (repeat rewrite ?length_map, ?length_combine; lia). cbn [bind].
  rewrite np_binop_eq by (repeat rewrite ?length_map, ?length_combine; lia).
  eexists. split; [reflexivity|]. repeat rewrite ?length_map, ?length_combine. lia.
Qed.

Lemma np_array_row4 (l : list OutVec) (Hne : l <> []) :
  np_array (map row4 l) = Ok (Arr2 (map row4 l) 4).
Proof. exact (np_array_rows (fun x => x) l Hne). Qed.

(** [reflectance_stats] on arrays of 4-component rows raises
    [IndexError] when there are no 6S rows or no estimated rows (the column
    selection [[:,0]] of an empty array), and [ValueError] when both have at
    least two rows but different numbers of rows (the element-wise
    subtraction cannot broadcast). *)
Theorem reflectance_stats_shape_errors (sqrt_q : Qc -> Qc) (ref : flt) :
  (forall est : list OutVec,
     reflectance_stats sqrt_q ref [] (map row4 est) = Err IndexError) /\
  (forall truth : list OutVec, truth <> [] ->
     reflectance_stats sqrt_q ref (map row4 truth) [] = Err IndexError) /\
  (forall truth est : list OutVec,
     (1 < List.length truth)%nat -> (1 < List.length est)%nat ->
     List.length truth <> List.length est ->
     reflectance_stats sqrt_q ref (map row4 truth) (map row4 est) = Err ValueError).
Proof.
  split; [|split].
  - intros est. unfold reflectance_stats, rs_pd, rs_radiance_interp. cbn [np_array bind].
    destruct est as [|v est]; [reflexivity|].
    rewrite np_array_row4 by discriminate. reflexivity.
  - intros truth Hne. unfold reflectance_stats, rs_pd, rs_radiance_interp.
    rewrite (np_array_row4 truth Hne). cbn [np_array bind].
    rewrite !np_col_rows by lia. cbn [bind].
    destruct (at_sensor_radiance_len ref (map (fun x => nth 0 (row4 x) NaN) truth)
                (map (fun x => nth 1 (row4 x) NaN) truth) (map (fun x => nth 2 (row4 x) NaN) truth)
                (map (fun x => nth 3 (row4 x) NaN) truth) (List.length truth))
      as [r [Hr _]]; try apply length_map.
    rewrite Hr. reflexivity.
  - intros truth est Ht He Hn.
    assert (Hne : truth <> []) by (destruct truth; simpl in Ht; [lia|discriminate]).
    assert (Hne' : est <> []) by (destruct est; simpl in He; [lia|discriminate]).
    unfold reflectance_stats, rs_pd, rs_radiance_interp.
    rewrite (np_array_row4 truth Hne), (np_array_row4 est Hne'). cbn [bind].
    rewrite !np_col_rows by lia. cbn [bind].
    destruct (at_sensor_radiance_len ref (map (fun x => nth 0 (row4 x) NaN) truth)
                (map (fun x => nth 1 (row4 x) NaN) truth) (map (fun x => nth 2 (row4 x) NaN) truth)
                (map (fun x => nth 3 (row4 x) NaN) truth) (List.length truth))
      as [r [Hr Hlr]]; try apply length_map.
    rewrite Hr. cbn [bind]. unfold surface_reflectance.
    rewrite np_binop_mismatch; [reflexivity| |lia|].
    + rewrite Hlr, length_map. exact Hn.
    + rewrite length_map. exact He.
Qed.

Lemma reflectance_stats_shape_errors_witness :
  let v := (qc 1 1, qc 1 1, qc 9 10, qc 1 10) in
  reflectance_stats (fun x => x) (Fin (qc 1 10)) (map row4 [v; v]) [] = Err IndexError /\
  reflectance_stats (fun x => x) (Fin (qc 1 10)) (map row4 [v; v]) (map row4 [v; v; v])
    = Err ValueError.
Proof.
  intros v. split.
  - apply (proj1 (proj2 (reflectance_stats_shape_errors (fun x => x) (Fin (qc 1 10)))) [v; v]).
    discriminate.
  - apply (proj2 (proj2 (reflectance_stats_shape_errors (fun x => x) (Fin (qc 1 10)))) [v; v]
             [v; v; v]); simpl; lia.
Defined.

(** ** Order facts of [reflectance_stats] *)

Ltac qc_to_q :=
  unfold Qcle, Qclt, Qcminus, Qcplus, Qcmult, Qcopp, Q2Qc in *; cbn [this] in *;
  repeat rewrite Qred_correct in *.

Lemma fle_refl (a : flt) : fle a a = true.
Proof. destruct a; simpl; auto. apply Qle_bool_iff. apply Qle_refl. Qed.

Lemma fle_trans (a b c : flt) : fle a b = true -> fle b c = true -> fle a c = true.
Proof.
  destruct a, b, c; simpl; auto; try discriminate.
  rewrite !Qle_bool_iff. apply Qle_trans.
Qed.

Lemma fle_total (a b : flt) : fle a b = false -> fle b a = true.
Proof.
  destruct a, b; simpl; auto; try discriminate.
  intros H. apply Qle_bool_iff. apply Qlt_le_weak. apply Qnot_le_lt.
  intros H'. apply Qle_bool_iff in H'. congruence.
Qed.

Lemma drop_nans_no_nan (pd : list flt) : Forall (fun x => is_nan x = false) (drop_nans pd).
Proof.
  apply Forall_forall. intros x Hx. unfold drop_nans in Hx. apply filter_In in Hx.
  destruct Hx as [_ Hx]. destruct x; [reflexivity|reflexivity|reflexivity|discriminate].
Qed.

Lemma fold_fmin_bound (xs : list flt) (acc : flt) :
  is_nan acc = false -> Forall (fun x => is_nan x = false) xs ->
  In (fold_left fmin xs acc) (acc :: xs) /\
  Forall (fun y => fle (fold_left fmin xs acc) y = true) (acc :: xs).
Proof.
  revert acc. induction xs as [|x xs IH]; intros acc Ha Hxs; simpl.
  - split; [left; reflexivity|]. constructor; [apply fle_refl|constructor].
  - inversion Hxs as [|? ? Hx Hxs']; subst.
    assert (Hm : fmin acc x = if fle acc x then acc else x)
      by (unfold fmin; rewrite Ha, Hx; reflexivity).
    assert (Hmn : is_nan (fmin acc x) = false) by (rewrite Hm; destruct (fle acc x); auto).
    destruct (IH (fmin acc x) Hmn Hxs') as [Hin Hle].
    set (m := fold_left fmin xs (fmin acc x)) in *.
    inversion Hle as [|? ? Hm0 Hle']; subst.
    split.
    + destruct Hin as [Hin|Hin]; [|right; right; exact Hin].
      rewrite <- Hin, Hm. destruct (fle acc x); [left|right; left]; reflexivity.
    + rewrite Hm in Hm0. destruct (fle acc x) eqn:E.
      * constructor; [exact Hm0|]. constructor; [apply (fle_trans _ _ _ Hm0 E)|exact Hle'].
      * apply fle_total in E.
        constructor; [apply (fle_trans _ _ _ Hm0 E)|]. constructor; [exact Hm0|exact Hle'].
Qed.

Lemma fold_fmax_bound (xs : list flt) (acc : flt) :
  is_nan acc = false -> Forall (fun x => is_nan x = false) xs ->
  In (fold_left fmax xs acc) (acc :: xs) /\
  Forall (fun y => fle y (fold_left fmax xs acc) = true) (acc :: xs).
Proof.
  revert acc. induction xs as [|x xs IH]; intros acc Ha Hxs; simpl.
  - split; [left; reflexivity|]. constructor; [apply fle_refl|constructor].
  - inversion Hxs as [|? ? Hx Hxs']; subst.
    assert (Hm : fmax acc x = if fle acc x then x else acc)
      by (unfold fmax; rewrite Ha, Hx; reflexivity).
    assert (Hmn : is_nan (fmax acc x) = false) by (rewrite Hm; destruct (fle acc x); auto).
    destruct (IH (fmax acc x) Hmn Hxs') as [Hin Hle].
    set (m := fold_left fmax xs (fmax acc x)) in *.
    inversion Hle as [|? ? Hm0 Hle']; subst.
    split.
    + destruct Hin as [Hin|Hin]; [|right; right; exact Hin].
      rewrite <- Hin, Hm. destruct (fle acc x); [right; left|left]; reflexivity.
    + rewrite Hm in Hm0. destruct (fle acc x) eqn:E.
      * constructor; [apply (fle_trans _ _ _ E Hm0)|]. constructor; [exact Hm0|exact Hle'].
      * apply fle_total in E.
        constructor; [exact Hm0|]. constructor; [apply (fle_trans _ _ _ E Hm0)|exact Hle'].
Qed.

Lemma reflectance_stats_inv (sqrt_q : Qc -> Qc) (ref : flt) (sixs est : list (list flt))
  (r : ValidationResult) :
  reflectance_stats sqrt_q ref sixs est = Ok r ->
  exists pd0 mn mx qs,
    rs_pd ref sixs est = Ok pd0 /\ vr_pd r = drop_nans pd0 /\
    np_min (drop_nans pd0) = Ok mn /\ np_max (drop_nans pd0) = Ok mx /\
    np_percentile (map fabs (drop_nans pd0)) [90; 95; 99]%nat = Ok qs /\
    vr_stats r = (np_mean (drop_nans pd0), np_std sqrt_q (drop_nans pd0), mn, mx) /\
    vr_confidence r = [("90"%string, nth 0 qs NaN); ("95"%string, nth 1 qs NaN);
                       ("99"%string, nth 2 qs NaN)].
Proof.
  unfold reflectance_stats.
  destruct (rs_pd ref sixs est) as [pd0|e] eqn:E1; cbn [bind]; [|discriminate].
  destruct (np_min (drop_nans pd0)) as [mn|e] eqn:E2; cbn [bind]; [|discriminate].
  destruct (np_max (drop_nans pd0)) as [mx|e] eqn:E3; cbn [bind]; [|discriminate].
  destruct (np_percentile _ _) as [qs|e] eqn:E4; cbn [bind]; [|discriminate].
  intros H. inversion H; subst. exists pd0, mn, mx, qs. repeat split; assumption.
Qed.

(** When [reflectance_stats] returns, the kept [pd] contains no [nan], and
    the reported minimum and maximum are values of [pd] with every value of
    [pd] between them (in numpy's order, [-inf] below and [inf] above the
    finite values). *)
Theorem reflectance_stats_min_max (sqrt_q : Qc -> Qc) (ref : flt) (sixs est : list (list flt))
  (r : ValidationResult) (H : reflectance_stats sqrt_q ref sixs est = Ok r) :
  let '(_, _, mn, mx) := vr_stats r in
  Forall (fun x => is_nan x = false) (vr_pd r) /\ In mn (vr_pd r) /\ In mx (vr_pd r) /\
  Forall (fun x => fle mn x = true /\ fle x mx = true) (vr_pd r).
Proof.
  destruct (reflectance_stats_inv sqrt_q ref sixs est r H)
    as [pd0 [mn [mx [qs [_ [Hpd [Hmn [Hmx [_ [Hst _]]]]]]]]]].
  rewrite Hst, Hpd. pose proof (drop_nans_no_nan pd0) as Hn.
  destruct (drop_nans pd0) as [|x xs]; [discriminate|].
  inversion Hmn; inversion Hmx; subst. inversion Hn as [|? ? Hx Hxs]; subst.
  destruct (fold_fmin_bound xs x Hx Hxs) as [Hi1 Hl1].
  destruct (fold_fmax_bound xs x Hx Hxs) as [Hi2 Hl2].
  split; [exact Hn|]. split; [exact Hi1|]. split; [exact Hi2|].
  rewrite Forall_forall in *. intros y Hy. split; [apply Hl1|apply Hl2]; exact Hy.
Qed.

Lemma insert_sorted_In (x y : flt) (l : list flt) :
  In y (insert_sorted x l) <-> x = y \/ In y l.
Proof.
  induction l as [|a l IH]; simpl; [reflexivity|].
  destruct (fle x a); simpl; [reflexivity|].
  rewrite IH. tauto.
Qed.

Lemma np_sort_In (xs : list flt) (y : flt) : In y (np_sort xs) <-> In y xs.
Proof.
  unfold np_sort. induction xs as [|x xs IH]; simpl; [reflexivity|].
  rewrite insert_sorted_In, IH. split; intros [H|H]; auto.
Qed.

Lemma np_sort_length (xs : list flt) : List.length (np_sort xs) = List.length xs.
Proof.
  unfold np_sort. induction xs as [|x xs IH]; simpl; [reflexivity|].
  rewrite <- IH. generalize (fold_right insert_sorted [] xs) as l. intros l.
  induction l as [|a l IHl]; simpl; [reflexivity|].
  destruct (fle x a); simpl; [reflexivity|]. rewrite IHl. reflexivity.
Qed.

Lemma insert_sorted_Sorted (x : flt) (l : list flt) :
  Sorted (fun a b => fle a b = true) l -> Sorted (fun a b => fle a b = true) (insert_sorted x l).
Proof.
  induction l as [|a l IH]; intros Hs; simpl.
  - constructor; constructor.
  - destruct (fle x a) eqn:E.
    + constructor; [exact Hs|constructor; exact E].
    + apply fle_total in E. inversion Hs as [|? ? Hs' Hd]; subst.
      constructor; [apply IH; exact Hs'|].
      destruct l as [|b l]; simpl; [constructor; exact E|].
      inversion Hd; subst. destruct (fle x b); constructor; assumption.
Qed.

Lemma np_sort_Sorted (xs : list flt) : Sorted (fun a b => fle a b = true) (np_sort xs).
Proof.
  unfold np_sort. induction xs as [|x xs IH]; simpl; [constructor|].
  apply insert_sorted_Sorted, IH.
Qed.

Lemma Forall_fin_map (l : list flt) :
  Forall (fun x => exists q, x = Fin q) l -> exists xs, l = map Fin xs.
Proof.
  induction 1 as [|x l [q Hq] _ [xs Hxs]]; [exists []; reflexivity|].
  exists (q :: xs). subst. reflexivity.
Qed.

Lemma sorted_fin_nth (xs : list Qc) :
  Sorted (fun a b => fle a b = true) (map Fin xs) ->
  forall i j, (i <= j < List.length xs)%nat -> (nth i xs 0 <= nth j xs 0)%Qc.
Proof.
  intros Hs. apply Sorted_StronglySorted in Hs; [|intros a b c; apply fle_trans].
  induction xs as [|a xs IH]; intros i j Hij; simpl in Hij; [lia|].
  inversion Hs as [|? ? Hs' Hf]; subst.
  destruct i as [|i], j as [|j]; simpl.
  - apply Qle_refl.
  - rewrite Forall_forall in Hf.
    assert (Hin : In (Fin (nth j xs 0)) (map Fin xs)) by (apply in_map, nth_In; lia).
    specialize (Hf _ Hin). simpl in Hf. apply Qle_bool_iff in Hf. exact Hf.
  - lia.
  - apply IH; [exact Hs'|lia].
Qed.

Lemma nth_map_Fin (xs : list Qc) (i : nat) :
  (i < List.length xs)%nat -> nth i (map Fin xs) NaN = Fin (nth i xs 0).
Proof.
  intros H. rewrite (nth_indep _ NaN (Fin 0)) by (rewrite length_map; exact H).
  apply (map_nth Fin).
Qed.

Lemma np_lerp_fin (a b t : Qc) : np_lerp (Fin a) (Fin b) t = Fin (a + (b - a) * t)%Qc.
Proof. unfold np_lerp. destruct (Qle_bool _ _); cbn; f_equal; ring. Qed.

Lemma percentile_sorted_fin (xs : list Qc) (q : nat) (Hne : xs <> []) (Hq : (q <= 100)%nat) :
  let n := List.length xs in
  let lo := ((n - 1) * q / 100)%nat in
  let hi := Nat.min (lo + 1) (n - 1) in
  percentile_sorted (map Fin xs) q
  = Fin (nth lo xs 0 + (nth hi xs 0 - nth lo xs 0) * qc (Z.of_nat ((n - 1) * q mod 100)) 100)%Qc
  /\ (lo <= hi < n)%nat /\ (hi <= lo + 1)%nat.
Proof.
  intros n lo hi.
  assert (Hn : (0 < n)%nat) by (destruct xs; [contradiction|simpl in n; subst n; simpl; lia]).
  pose proof (Nat.div_mod_eq ((n - 1) * q) 100) as Hd.
  pose proof (Nat.mod_upper_bound ((n - 1) * q) 100 ltac:(lia)) as Hm.
  assert (Hh : ((n - 1) * q <= (n - 1) * 100)%nat) by (apply Nat.mul_le_mono_l; exact Hq).
  assert (Hlo : (lo < n)%nat) by (subst lo; lia).
  assert (Hhi : (lo <= hi < n /\ hi <= lo + 1)%nat) by (subst hi; lia).
  split; [|exact Hhi].
  unfold percentile_sorted. rewrite length_map. fold n. fold lo. fold hi.
  rewrite !nth_map_Fin by lia. apply np_lerp_fin.
Qed.

Lemma qc_frac_bounds (r : nat) :
  (r < 100)%nat -> (0 <= qc (Z.of_nat r) 100 /\ qc (Z.of_nat r) 100 <= 1)%Qc.
Proof. intros H. unfold qc. qc_to_q. unfold Qle. simpl. lia. Qed.

Lemma qc_frac_mono (r1 r2 : nat) :
  (r1 <= r2)%nat -> (qc (Z.of_nat r1) 100 <= qc (Z.of_nat r2) 100)%Qc.
Proof. intros H. unfold qc. qc_to_q. unfold Qle. simpl. lia. Qed.

Lemma lerp_ge_a (a b t : Qc) : (a <= b -> 0 <= t -> a <= a + (b - a) * t)%Qc.
Proof. qc_to_q. intros. nra. Qed.

Lemma lerp_le_b (a b t : Qc) : (a <= b -> t <= 1 -> a + (b - a) * t <= b)%Qc.
Proof. qc_to_q. intros. nra. Qed.

Lemma lerp_mono_t (a b t1 t2 : Qc) :
  (a <= b -> t1 <= t2 -> a + (b - a) * t1 <= a + (b - a) * t2)%Qc.
Proof. qc_to_q. intros. nra. Qed.

(** Linear percentiles of a sorted finite array are at least its first
    element and grow with the requested percentage. *)
Lemma percentile_mono (xs : list Qc) (Hne : xs <> [])
  (Hs : forall i j, (i <= j < List.length xs)%nat -> (nth i xs 0 <= nth j xs 0)%Qc)
  (q1 q2 : nat) (H12 : (q1 <= q2)%nat) (H2 : (q2 <= 100)%nat) :
  exists v1 v2, percentile_sorted (map Fin xs) q1 = Fin v1 /\
    percentile_sorted (map Fin xs) q2 = Fin v2 /\ (nth 0 xs 0 <= v1 /\ v1 <= v2)%Qc.
Proof.
  destruct (percentile_sorted_fin xs q1 Hne ltac:(lia)) as [E1 [Hb1 Hc1]].
  destruct (percentile_sorted_fin xs q2 Hne H2) as [E2 [Hb2 Hc2]].
  cbv zeta in *. rewrite E1, E2. eexists _, _. split; [reflexivity|]. split; [reflexivity|].
  set (n := List.length xs) in *.
  pose proof (Nat.div_mod_eq ((n - 1) * q1) 100) as Hd1.
  pose proof (Nat.mod_upper_bound ((n - 1) * q1) 100 ltac:(lia)) as Hm1.
  pose proof (Nat.div_mod_eq ((n - 1) * q2) 100) as Hd2.
  pose proof (Nat.mod_upper_bound ((n - 1) * q2) 100 ltac:(lia)) as Hm2.
  assert (Hh : ((n - 1) * q1 <= (n - 1) * q2)%nat) by (apply Nat.mul_le_mono_l; exact H12).
  set (lo1 := ((n - 1) * q1 / 100)%nat) in *. set (lo2 := ((n - 1) * q2 / 100)%nat) in *.
  set (r1 := ((n - 1) * q1 mod 100)%nat) in *. set (r2 := ((n - 1) * q2 mod 100)%nat) in *.
  set (hi1 := Nat.min (lo1 + 1) (n - 1)) in *. set (hi2 := Nat.min (lo2 + 1) (n - 1)) in *.
  destruct (qc_frac_bounds r1 Hm1) as [T10 T11].
  destruct (qc_frac_bounds r2 Hm2) as [T20 T21].
  assert (A1 : (nth lo1 xs 0 <= nth hi1 xs 0)%Qc) by (apply Hs; lia).
  assert (A2 : (nth lo2 xs 0 <= nth hi2 xs 0)%Qc) by (apply Hs; lia).
  split.
  - apply (Qcle_trans _ (nth lo1 xs 0)); [apply Hs; lia|]. apply lerp_ge_a; assumption.
  - assert (Hlo : (lo1 = lo2 \/ lo1 < lo2)%nat) by lia.
    destruct Hlo as [Hlo|Hlo].
    + assert (Hhi : hi1 = hi2) by (subst hi1 hi2; rewrite Hlo; reflexivity).
      rewrite <- Hhi, <- Hlo. apply lerp_mono_t; [exact A1|]. apply qc_frac_mono. lia.
    + apply (Qcle_trans _ (nth hi1 xs 0)); [apply lerp_le_b; assumption|].
      apply (Qcle_trans _ (nth lo2 xs 0)); [apply (Hs hi1 lo2); lia|].
      apply lerp_ge_a; assumption.
Qed.

Lemma fabs_fin_nonneg (q : Qc) : (0 <= if Qclt_le_dec q 0 then - q else q)%Qc.
Proof. destruct (Qclt_le_dec q 0) as [H|H]; [|exact H]. revert H. qc_to_q. intros. lra. Qed.

(** When [reflectance_stats] returns and every kept percentage difference
    is finite, the three confidence values are finite, non-negative and
    ordered: the 90% value is at most the 95% value, which is at most the
    99% value. *)
Theorem reflectance_stats_confidence_order (sqrt_q : Qc -> Qc) (ref : flt)
  (sixs est : list (list flt)) (r : ValidationResult)
  (H : reflectance_stats sqrt_q ref sixs est = Ok r)
  (Hfin : Forall (fun x => exists q, x = Fin q) (vr_pd r)) :
  exists c90 c95 c99,
    vr_confidence r = [("90"%string, Fin c90); ("95"%string, Fin c95); ("99"%string, Fin c99)] /\
    (0 <= c90 /\ c90 <= c95 /\ c95 <= c99)%Qc.
Proof.
  destruct (reflectance_stats_inv sqrt_q ref sixs est r H)
    as [pd0 [mn [mx [qs [_ [Hpd [Hmn [_ [Hq [_ Hc]]]]]]]]]].
  rewrite Hc. rewrite Hpd in Hfin. set (pd := drop_nans pd0) in *.
  assert (Hne : pd <> []) by (intros E; rewrite E in Hmn; discriminate).
  assert (Hq' : qs = map (percentile_sorted (np_sort (map fabs pd))) [90; 95; 99]%nat).
  { unfold np_percentile in Hq. destruct pd as [|x pd']; [contradiction|].
    inversion Hq. reflexivity. }
  subst qs. cbn [map nth].
  assert (Hs : Forall (fun x => exists q, x = Fin q /\ (0 <= q)%Qc) (np_sort (map fabs pd))).
  { apply Forall_forall. intros x Hx. apply np_sort_In, in_map_iff in Hx.
    destruct Hx as [y [<- Hy]]. rewrite Forall_forall in Hfin.
    destruct (Hfin y Hy) as [q ->]. eexists. split; [reflexivity|]. apply fabs_fin_nonneg. }
  destruct (Forall_fin_map (np_sort (map fabs pd)))
    as [xs Hxs]; [eapply Forall_impl; [|exact Hs]; intros x [q [E _]]; exists q; exact E|].
  pose proof (np_sort_Sorted (map fabs pd)) as Hsort. rewrite Hxs in Hsort, Hs.
  pose proof (sorted_fin_nth xs Hsort) as Hn. rewrite Hxs.
  assert (Hxne : xs <> []).
  { intros E. pose proof (np_sort_length (map fabs pd)) as L. rewrite Hxs, E, length_map in L.
    destruct pd; [contradiction|discriminate]. }
  assert (H0 : (0 <= nth 0 xs 0)%Qc).
  { destruct xs as [|x0 xs']; [contradiction|]. inversion Hs as [|? ? [q [Eq Hq0]] _]; subst.
    inversion Eq; subst. exact Hq0. }
  destruct (percentile_mono xs Hxne Hn 90 95 ltac:(lia) ltac:(lia)) as [a [b [Ea [Eb [Ha Hab]]]]].
  destruct (percentile_mono xs Hxne Hn 95 99 ltac:(lia) ltac:(lia)) as [b' [c [Eb' [Ec [_ Hbc]]]]].
  rewrite Eb in Eb'. inversion Eb'; subst b'.
  exists a, b, c. rewrite Ea, Eb, Ec. split; [reflexivity|].
  split; [eapply Qcle_trans; [exact H0|exact Ha]|]. split; assumption.
Qed.

Lemma reflectance_stats_min_max_witness :
  let sixs := map row4 [(qc 1 1, qc 1 1, qc 9 10, qc 8 10); (qc 2 1, qc 1 1, qc 8 10, qc 1 10);
                        (qc 1 1, qc 1 2, qc 9 10, qc 2 10)] in
  let est := map row4 [(qc 1 1, qc 2 1, qc 8 10, qc 7 10); (qc 2 1, qc 1 1, qc 8 10, qc 1 10);
                       (qc 1 1, qc 1 1, qc 7 10, qc 1 10)] in
  exists r, reflectance_stats (fun x => x) (Fin (qc 1 100)) sixs est = Ok r /\
    let '(_, _, mn, mx) := vr_stats r in
    Forall (fun x => is_nan x = false) (vr_pd r) /\ In mn (vr_pd r) /\ In mx (vr_pd r) /\
    Forall (fun x => fle mn x = true /\ fle x mx = true) (vr_pd r).
Proof.
  intros sixs est.
  pose (r := match reflectance_stats (fun x => x) (Fin (qc 1 100)) sixs est with
             | Ok r => r | Err _ => mkValidationResult NaN [] (NaN, NaN, NaN, NaN) [] end).
  assert (Hr : reflectance_stats (fun x => x) (Fin (qc 1 100)) sixs est = Ok r)
    by (vm_compute; reflexivity).
  exists r. split; [exact Hr|].
  exact (reflectance_stats_min_max (fun x => x) (Fin (qc 1 100)) sixs est r Hr).
Defined.

Lemma reflectance_stats_confidence_order_witness :
  let sixs := map row4 [(qc 1 1, qc 1 1, qc 9 10, qc 8 10); (qc 2 1, qc 1 1, qc 8 10, qc 1 10);
                        (qc 1 1, qc 1 2, qc 9 10, qc 2 10)] in
  let est := map row4 [(qc 1 1, qc 2 1, qc 8 10, qc 7 10); (qc 2 1, qc 1 1, qc 8 10, qc 1 10);
                       (qc 1 1, qc 1 1, qc 7 10, qc 1 10)] in
  exists r, reflectance_stats (fun x => x) (Fin (qc 1 100)) sixs est = Ok r /\
    Forall (fun x => exists q, x = Fin q) (vr_pd r) /\
    exists c90 c95 c99,
      vr_confidence r = [("90"%string, Fin c90); ("95"%string, Fin c95); ("99"%string, Fin c99)] /\
      (0 <= c90 /\ c90 <= c95 /\ c95 <= c99)%Qc.
Proof.
  intros sixs est.
  pose (r := match reflectance_stats (fun x => x) (Fin (qc 1 100)) sixs est with
             | Ok r => r | Err _ => mkValidationResult NaN [] (NaN, NaN, NaN, NaN) [] end).
  assert (Hr : reflectance_stats (fun x => x) (Fin (qc 1 100)) sixs est = Ok r)
    by (vm_compute; reflexivity).
  assert (Hf : Forall (fun x => exists q, x = Fin q) (vr_pd r)).
  { vm_compute. repeat (apply Forall_cons; [eexists; reflexivity|]). apply Forall_nil. }
  exists r. split; [exact Hr|]. split; [exact Hf|].
  exact (reflectance_stats_confidence_order (fun x => x) (Fin (qc 1 100)) sixs est r Hr Hf).
Defined.

(** ** [mid_points] on increasing sequences *)

Lemma mid_between (a b : Qc) : (a < b -> a < (a + b) / qc 2 1 /\ (a + b) / qc 2 1 < b)%Qc.
Proof.
  assert (E : ((a + b) / qc 2 1 = (a + b) * qc 1 2)%Qc) by (apply Qc_is_canon; reflexivity).
  rewrite E. unfold qc. qc_to_q. intros. split; lra.
Qed.

Lemma nth_consecutive_midpoints (l : list Qc) (i : nat) :
  (S i < List.length l)%nat ->
  nth i (consecutive_midpoints l) 0 = ((nth i l 0 + nth (S i) l 0) / qc 2 1)%Qc.
Proof.
  revert i. induction l as [|a l IH]; intros i Hi; simpl in Hi; [lia|].
  destruct l as [|b l]; simpl in Hi; [lia|].
  destruct i as [|i]; [reflexivity|].
  change (nth (S i) (consecutive_midpoints (a :: b :: l)) 0)
    with (nth i (consecutive_midpoints (b :: l)) 0).
  rewrite IH by (simpl; lia). reflexivity.
Qed.

Lemma mid_points_eq (l : list Qc) : mid_points l = consecutive_midpoints l.
Proof.
  destruct l as [|a rest]; [reflexivity|].
  unfold mid_points, slice_from1, slice_to_last. simpl tl. apply mid_points_cons.
Qed.

Lemma increasing_nth (l : list Qc)
  (Hinc : forall i, (S i < List.length l)%nat -> (nth i l 0 < nth (S i) l 0)%Qc) :
  forall i j, (i < j < List.length l)%nat -> (nth i l 0 < nth j l 0)%Qc.
Proof.
  intros i j Hij. induction j as [|j IH]; [lia|].
  destruct (Nat.eq_dec i j) as [->|Hne]; [apply Hinc; lia|].
  apply (Qclt_trans _ (nth j l 0)); [apply IH; lia|apply Hinc; lia].
Qed.

(** On a strictly increasing sequence, each value of [mid_points] lies
    strictly between the two input values it is computed from, so the
    result is strictly increasing and shares no value with the input (the
    validation grid has no point of the full grid). *)
Theorem mid_points_between (l : list Qc)
  (Hinc : forall i, (S i < List.length l)%nat -> (nth i l 0 < nth (S i) l 0)%Qc) :
  (forall i, (i < List.length (mid_points l))%nat ->
     (nth i l 0 < nth i (mid_points l) 0 /\ nth i (mid_points l) 0 < nth (S i) l 0)%Qc) /\
  (forall x, In x (mid_points l) -> ~ In x l).
Proof.
  assert (Hlen : forall i, (i < List.length (mid_points l))%nat -> (S i < List.length l)%nat).
  { intros i Hi. destruct l as [|a rest]; [simpl in Hi; lia|].
    rewrite mid_points_eq, length_consecutive_midpoints in Hi. simpl. lia. }
  assert (Hb : forall i, (i < List.length (mid_points l))%nat ->
     (nth i l 0 < nth i (mid_points l) 0 /\ nth i (mid_points l) 0 < nth (S i) l 0)%Qc).
  { intros i Hi. rewrite mid_points_eq. specialize (Hlen i Hi).
    rewrite nth_consecutive_midpoints by exact Hlen. apply mid_between, Hinc, Hlen. }
  split; [exact Hb|].
  intros x Hx Hxl. apply In_nth with (d := 0%Qc) in Hx. destruct Hx as [i [Hi <-]].
  apply In_nth with (d := 0%Qc) in Hxl. destruct Hxl as [j [Hj Ej]].
  destruct (Hb i Hi) as [H1 H2]. pose proof (Hlen i Hi) as HS.
  destruct (Nat.le_gt_cases j i) as [Hji|Hji].
  - assert (Hle : (nth j l 0 <= nth i l 0)%Qc).
    { destruct (Nat.eq_dec j i) as [->|Hne]; [apply Qcle_refl|].
      apply Qclt_le_weak, (increasing_nth l Hinc); lia. }
    rewrite Ej in Hle. apply (Qclt_not_le _ _ H1 Hle).
  - assert (Hle : (nth (S i) l 0 <= nth j l 0)%Qc).
    { destruct (Nat.eq_dec j (S i)) as [->|Hne]; [apply Qcle_refl|].
      apply Qclt_le_weak, (increasing_nth l Hinc); lia. }
    rewrite Ej in Hle. apply (Qclt_not_le _ _ H2 Hle).
Qed.

Lemma mid_points_between_witness :
  (forall i, (S i < List.length (solar_zs full_grid))%nat ->
     (nth i (solar_zs full_grid) 0 < nth (S i) (solar_zs full_grid) 0)%Qc) /\
  (forall x, In x (solar_zs validation_grid) -> ~ In x (solar_zs full_grid)).
Proof.
  assert (Hinc : forall i, (S i < List.length (solar_zs full_grid))%nat ->
     (nth i (solar_zs full_grid) 0 < nth (S i) (solar_zs full_grid) 0)%Qc).
  { intros i Hi. simpl in Hi.
    do 9 (destruct i as [|i]; [vm_compute; reflexivity|]). lia. }
  split; [exact Hinc|].
  exact (proj2 (mid_points_between (solar_zs full_grid) Hinc)).
Defined.
